(** * Expensify App: form validation, export settings, drag-and-drop
      consumer and attachment modal

    Shallow embedding of four UI components of the repository:

    - [TransactionFieldIDStep]  (NetSuite custom-list form step),
    - [QuickbooksExportConfigurationPage],
    - [DragAndDropConsumer],
    - [AttachmentModal].

    React components are embedded as pure functions from props, hook state
    and context to a description of what is rendered; event handlers are
    state transformers that also log the calls they make to callbacks and
    to imported modules.  Functions imported from modules whose source is
    not part of the development ([translate], [Str.isPDF],
    [ValidationUtils.isRequiredFulfilled], ...) are section variables. *)

From Stdlib Require Import ZArith List Bool Ascii String.
From stdpp Require Import base option list strings gmap.

Local Open Scope string_scope.
Local Open Scope Z_scope.

(** ** JavaScript values *)

(** Truthiness of a string: only the empty string is falsy. *)
Definition truthy (s : string) : bool :=
  if decide (s = "") then false else true.

(** Truthiness of a possibly undefined string ([undefined] is [None]). *)
Definition truthy_opt (o : option string) : bool :=
  match o with
  | Some s => truthy s
  | None => false
  end.

(** [a || b] on a possibly undefined string [a] and a string [b]. *)
Definition or_else (a : option string) (b : string) : string :=
  match a with
  | Some s => if truthy s then s else b
  | None => b
  end.

(** [a ?? b]. *)
Definition nullish {A : Type} (a : option A) (b : A) : A :=
  match a with
  | Some x => x
  | None => b
  end.

(** [a ? f(a) : undefined] for a possibly undefined string [a]. *)
Definition whenTruthy {A : Type} (a : option string) (f : string → A) : option A :=
  match a with
  | Some s => if truthy s then Some (f s) else None
  | None => None
  end.

(** Optional chaining: [o?.f] for a field [f] that may itself be undefined. *)
Definition chain {A B : Type} (o : option A) (f : A → option B) : option B :=
  match o with
  | Some a => f a
  | None => None
  end.

Notation "o ?> f" := (chain o f) (at level 50, left associativity).

(** An ASCII reading of [String.prototype.toLowerCase], used to run the
    form validation on concrete inputs. *)
Definition ascii_lower (c : ascii) : ascii :=
  let n := nat_of_ascii c in
  if (Nat.leb 65 n && Nat.leb n 90)%bool then ascii_of_nat (n + 32) else c.

Fixpoint lower (s : string) : string :=
  match s with
  | EmptyString => EmptyString
  | String c r => String (ascii_lower c) (lower r)
  end.

(** ** NetSuite: TransactionFieldIDStep *)

Module TransactionFieldIDStep.

Record NetSuiteCustomList := {
  listName : string;
  transactionFieldID : string
}.

Record NetSuiteSyncOptions := { customLists : option (list NetSuiteCustomList) }.
Record NetSuiteConfig := { syncOptions : option NetSuiteSyncOptions }.
Record NetSuiteOptions := { config : option NetSuiteConfig }.
Record NetSuiteConnection := { options : option NetSuiteOptions }.
Record Connections := { netsuite : option NetSuiteConnection }.
Record Policy := { connections : option Connections }.

(** [policy?.connections?.netsuite?.options?.config?.syncOptions?.customLists] *)
Definition policyCustomLists (policy : option Policy) : option (list NetSuiteCustomList) :=
  policy ?> connections ?> netsuite ?> options ?> config ?> syncOptions ?> customLists.

(** Outcome of a call: a value, or the [TypeError] raised by a method call
    on [undefined]. *)
Inductive Result (A : Type) :=
| Ok (a : A)
| TypeError.
Arguments Ok {A} a.
Arguments TypeError {A}.

(** A concrete environment on which [validate] can be run: a policy with
    one custom list, a required-field check that accepts any non-empty
    string, and translations that show their path and arguments. *)
Definition samplePolicy : option Policy :=
  Some {| connections := Some {| netsuite := Some {| options := Some {| config :=
    Some {| syncOptions := Some {| customLists :=
      Some [ {| listName := "Departments"; transactionFieldID := "custcol_dept" |} ] |} |} |} |} |} |}.

Definition sampleTranslate (path : string) (args : list string) : string :=
  String.concat "|" (path :: args).

Section Validate.
(** [INPUT_IDS.TRANSACTION_FIELD_ID] *)
Variable TRANSACTION_FIELD_ID : string.
(** [translate(path, ...args)] of [useLocalize] *)
Variable translate : string → list string → string.
(** [ValidationUtils.isRequiredFulfilled]; the argument is [None] when the
    form has no value under the key. *)
Variable isRequiredFulfilled : option string → bool.
(** [String.prototype.toLowerCase] and [String.prototype.toLocaleLowerCase] *)
Variable toLowerCase : string → string.
Variable toLocaleLowerCase : string → string.

Variable policy : option Policy.

Definition fieldLabel : string :=
  translate "workspace.netsuite.import.importCustomFields.customLists.fields.transactionFieldID" [].

Definition requiredFieldError : string :=
  translate "workspace.netsuite.import.importCustomFields.requiredFieldError" [fieldLabel].

Definition uniqueTransactionFieldIdError : string :=
  translate "workspace.netsuite.import.importCustomFields.uniqueTransactionFieldIdError" [].

(** The callback given to [find]:
    [customList.transactionFieldID.toLowerCase() === value.toLocaleLowerCase()];
    the [TypeError] is that of [undefined.toLocaleLowerCase()]. *)
Definition sameFieldID (value : option string) (customList : NetSuiteCustomList) : Result bool :=
  match value with
  | Some v => Ok (bool_decide (toLowerCase (transactionFieldID customList) = toLocaleLowerCase v))
  | None => TypeError
  end.

(** [Array.prototype.find] with a callback that may throw. *)
Fixpoint find (value : option string) (l : list NetSuiteCustomList)
  : Result (option NetSuiteCustomList) :=
  match l with
  | [] => Ok None
  | customList :: rest =>
      match sameFieldID value customList with
      | TypeError => TypeError
      | Ok true => Ok (Some customList)
      | Ok false => find value rest
      end
  end.

(** [customLists?.find(...)] *)
Definition findCustomList (value : option string) : Result (option NetSuiteCustomList) :=
  match policyCustomLists policy with
  | None => Ok None
  | Some l => find value l
  end.

Definition validate (values : gmap string string) : Result (gmap string string) :=
  let errors : gmap string string := ∅ in
  let value := values !! TRANSACTION_FIELD_ID in
  if negb (isRequiredFulfilled value) then
    Ok (<[TRANSACTION_FIELD_ID := requiredFieldError]> errors)
  else
    match findCustomList value with
    | TypeError => TypeError
    | Ok (Some _) => Ok (<[TRANSACTION_FIELD_ID := uniqueTransactionFieldIdError]> errors)
    | Ok None => Ok errors
    end.

(** The custom lists already configured on the policy. *)
Definition existingCustomLists : list NetSuiteCustomList :=
  nullish (policyCustomLists policy) [].

Lemma find_some value v l :
  value = Some v →
  (∃ customList, customList ∈ l ∧
     toLowerCase (transactionFieldID customList) = toLocaleLowerCase v) →
  ∃ customList, find value l = Ok (Some customList).
Proof.
  intros -> (cl & Hin & Heq).
  induction l as [|x l IH]; [by apply elem_of_nil in Hin|].
  cbn. case_bool_decide as Hx; [by eexists|].
  apply elem_of_cons in Hin as [->|Hin]; [done|]. by apply IH.
Qed.

Lemma find_none value v l :
  value = Some v →
  (∀ customList, customList ∈ l →
     toLowerCase (transactionFieldID customList) ≠ toLocaleLowerCase v) →
  find value l = Ok None.
Proof.
  intros -> Hall.
  induction l as [|x l IH]; [done|].
  cbn. case_bool_decide as Hx.
  - exfalso. apply (Hall x); [left|done].
  - apply IH. intros cl Hin. apply Hall. by right.
Qed.

(** C1.  For every form value map: when the transaction field ID does not
    fulfil [isRequiredFulfilled], [validate] returns the errors object that
    maps [TRANSACTION_FIELD_ID] to the required-field error; otherwise,
    when some custom list of the policy's NetSuite sync options has a
    [transactionFieldID] whose lower-cased form equals the lower-cased
    entered value, it maps [TRANSACTION_FIELD_ID] to the uniqueness error;
    and otherwise the errors object is empty. *)
Theorem validate_spec (values : gmap string string) :
  (isRequiredFulfilled (values !! TRANSACTION_FIELD_ID) = false →
     validate values = Ok {[ TRANSACTION_FIELD_ID := requiredFieldError ]})
  ∧ (∀ v, values !! TRANSACTION_FIELD_ID = Some v →
       isRequiredFulfilled (Some v) = true →
       ((∃ customList, customList ∈ existingCustomLists ∧
           toLowerCase (transactionFieldID customList) = toLocaleLowerCase v) →
          validate values = Ok {[ TRANSACTION_FIELD_ID := uniqueTransactionFieldIdError ]})
       ∧ ((∀ customList, customList ∈ existingCustomLists →
             toLowerCase (transactionFieldID customList) ≠ toLocaleLowerCase v) →
            validate values = Ok ∅)).
Proof.
  split.
  - intros Hreq. unfold validate. by rewrite Hreq.
  - intros v Hv Hreq. unfold validate, findCustomList, existingCustomLists.
    rewrite Hv, Hreq. cbn.
    destruct (policyCustomLists policy) as [l|]; cbn; split.
    + intros Hex. by destruct (find_some (Some v) v l eq_refl Hex) as [cl ->].
    + intros Hall. by rewrite (find_none (Some v) v l eq_refl Hall).
    + intros (cl & Hin & _). by apply elem_of_nil in Hin.
    + done.
Qed.
(** *** Edge cases of [validate] *)

Lemma find_string_ok v l : ∃ found, find (Some v) l = Ok found.
Proof.
  induction l as [|x l [found IH]]; [by eexists|].
  cbn. case_bool_decide; by eexists.
Qed.

(** X3.  When the policy has no NetSuite custom lists (the policy, or any
    link of the chain down to [customLists], is missing, or the list is
    empty), every value that fulfils the required check validates without
    errors; no lower-casing is attempted, so this holds also when the
    fulfilled value is absent from the form. *)
Theorem validate_without_custom_lists (values : gmap string string) :
  existingCustomLists = [] →
  isRequiredFulfilled (values !! TRANSACTION_FIELD_ID) = true →
  validate values = Ok ∅.
Proof.
  unfold existingCustomLists, validate, findCustomList. intros Hnone ->. cbn.
  destruct (policyCustomLists policy) as [l|]; [|done]. cbn in Hnone. by subst l.
Qed.

(** X4.  If [isRequiredFulfilled] turns down an absent value, [validate]
    never throws, and the errors object it returns has no entry for any
    field other than [TRANSACTION_FIELD_ID]. *)
Theorem validate_reports_one_field (values : gmap string string) :
  isRequiredFulfilled None = false →
  ∃ errors, validate values = Ok errors
            ∧ ∀ field, field ≠ TRANSACTION_FIELD_ID → errors !! field = None.
Proof.
  intros Habsent. unfold validate, findCustomList.
  destruct (values !! TRANSACTION_FIELD_ID) as [v|] eqn:Hv.
  - destruct (isRequiredFulfilled (Some v)); cbn.
    + destruct (policyCustomLists policy) as [l|].
      * destruct (find_string_ok v l) as [[found|] ->]; eexists; (split; [done|]);
          intros field Hfield; [by rewrite lookup_insert_ne|done].
      * by eexists.
    + eexists. split; [done|]. intros field Hfield. by rewrite lookup_insert_ne.
  - rewrite Habsent. cbn. eexists. split; [done|].
    intros field Hfield. by rewrite lookup_insert_ne.
Qed.

(** X5.  Where the runtime's [toLocaleLowerCase] agrees with [toLowerCase],
    entering the [transactionFieldID] of any existing custom list, wherever
    it stands in the list, is turned down with the uniqueness error. *)
Theorem validate_rejects_existing_id (values : gmap string string)
    (customList : NetSuiteCustomList) :
  (∀ s, toLocaleLowerCase s = toLowerCase s) →
  customList ∈ existingCustomLists →
  values !! TRANSACTION_FIELD_ID = Some (transactionFieldID customList) →
  isRequiredFulfilled (Some (transactionFieldID customList)) = true →
  validate values = Ok {[ TRANSACTION_FIELD_ID := uniqueTransactionFieldIdError ]}.
Proof.
  intros Hlocale Hin Hv Hreq. unfold validate, findCustomList.
  rewrite Hv, Hreq. cbn. unfold existingCustomLists in Hin.
  destruct (policyCustomLists policy) as [l|]; cbn in Hin;
    [|by apply elem_of_nil in Hin].
  destruct (find_some (Some (transactionFieldID customList))
              (transactionFieldID customList) l eq_refl) as [found ->]; [|done].
  exists customList. by rewrite Hlocale.
Qed.

End Validate.

Lemma validate_spec_witness :
  validate "transactionFieldID" sampleTranslate truthy_opt lower lower samplePolicy
    {[ "transactionFieldID" := "CUSTCOL_Dept" ]}
  = Ok {[ "transactionFieldID" :=
            "workspace.netsuite.import.importCustomFields.uniqueTransactionFieldIdError" ]}.
Proof.
  apply (proj2 (validate_spec "transactionFieldID" sampleTranslate truthy_opt lower lower
                  samplePolicy {[ "transactionFieldID" := "CUSTCOL_Dept" ]}) "CUSTCOL_Dept").
  - reflexivity.
  - reflexivity.
  - eexists. split; [left|reflexivity].
Defined.

Lemma validate_without_custom_lists_witness :
  validate "transactionFieldID" sampleTranslate truthy_opt lower lower None
    {[ "transactionFieldID" := "custcol_dept" ]}
  = Ok ∅.
Proof.
  apply (validate_without_custom_lists "transactionFieldID" sampleTranslate truthy_opt
           lower lower None {[ "transactionFieldID" := "custcol_dept" ]});
    reflexivity.
Defined.

Lemma validate_reports_one_field_witness :
  ∃ errors,
    validate "transactionFieldID" sampleTranslate truthy_opt lower lower samplePolicy ∅
    = Ok errors
    ∧ ∀ field, field ≠ "transactionFieldID" → errors !! field = None.
Proof.
  apply (validate_reports_one_field "transactionFieldID" sampleTranslate truthy_opt
           lower lower samplePolicy ∅).
  reflexivity.
Defined.

Lemma validate_rejects_existing_id_witness :
  validate "transactionFieldID" sampleTranslate truthy_opt lower lower samplePolicy
    {[ "transactionFieldID" := "custcol_dept" ]}
  = Ok {[ "transactionFieldID" :=
            "workspace.netsuite.import.importCustomFields.uniqueTransactionFieldIdError" ]}.
Proof.
  apply (validate_rejects_existing_id "transactionFieldID" sampleTranslate truthy_opt
           lower lower samplePolicy {[ "transactionFieldID" := "custcol_dept" ]}
           {| listName := "Departments"; transactionFieldID := "custcol_dept" |}).
  - reflexivity.
  - left.
  - reflexivity.
  - reflexivity.
Defined.

End TransactionFieldIDStep.

(** ** QuickBooks Online: QuickbooksExportConfigurationPage *)

Module QuickbooksExportConfigurationPage.

(** [policy.connections.quickbooksOnline.config]: the fields the page reads.
    [errors] maps a field name to its error message. *)
Record QBOConfig := {
  exporter : option string;
  exportDate : option string;
  exportEntity : option string;
  exportInvoice : option string;
  exportCompanyCard : option string;
  errors : option (gmap string string)
}.

Record QBOConnection := { config : option QBOConfig }.
Record Connections := { quickbooksOnline : option QBOConnection }.
Record Policy := {
  id : option string;
  owner : option string;
  connections : option Connections
}.

(** [CONST.BRICK_ROAD_INDICATOR_STATUS] *)
Inductive BrickRoadIndicator := ERROR | INFO.

(** The routes of [ROUTES] the page navigates to. *)
Inductive Route :=
| WORKSPACE_ACCOUNTING_QUICKBOOKS_ONLINE_PREFERRED_EXPORTER
| WORKSPACE_ACCOUNTING_QUICKBOOKS_ONLINE_EXPORT_DATE_SELECT
| WORKSPACE_ACCOUNTING_QUICKBOOKS_ONLINE_EXPORT_OUT_OF_POCKET_EXPENSES
| WORKSPACE_ACCOUNTING_QUICKBOOKS_ONLINE_INVOICE_ACCOUNT_SELECT
| WORKSPACE_ACCOUNTING_QUICKBOOKS_ONLINE_COMPANY_CARD_EXPENSE.

(** [() => Navigation.navigate(route.getRoute(policyID))] *)
Inductive PressHandler :=
| Navigate (route : Route) (policyID : string).

(** The fields of [MenuItemProps] the page sets; an unset field is [None]. *)
Record MenuItemProps := {
  description : string;
  onPress : option PressHandler;
  brickRoadIndicator : option BrickRoadIndicator;
  title : option string;
  shouldShowRightIcon : option bool
}.

(** [errors?.field], read for its truthiness. *)
Definition errorField (errs : option (gmap string string)) (field : string) : bool :=
  truthy_opt (errs ?> (λ e, e !! field)).

Section Page.
(** [translate(path)] of [useLocalize] *)
Variable translate : string → string.

Variable policy : option Policy.

Definition policyID : string := nullish (policy ?> id) "".
Definition policyOwner : string := nullish (policy ?> owner) "".

(** [policy?.connections?.quickbooksOnline?.config ?? {}] *)
Definition qboConfig : QBOConfig :=
  nullish (policy ?> connections ?> quickbooksOnline ?> config)
    {| exporter := None; exportDate := None; exportEntity := None;
       exportInvoice := None; exportCompanyCard := None; errors := None |}.

Definition indicator (field : string) : option BrickRoadIndicator :=
  if errorField (errors qboConfig) field then Some ERROR else None.

Definition menuItems : list MenuItemProps :=
  [ {| description := translate "workspace.qbo.preferredExporter";
       onPress := Some (Navigate WORKSPACE_ACCOUNTING_QUICKBOOKS_ONLINE_PREFERRED_EXPORTER policyID);
       brickRoadIndicator := indicator "exporter";
       title := Some (nullish (exporter qboConfig) policyOwner);
       shouldShowRightIcon := None |};
    {| description := translate "workspace.qbo.date";
       onPress := Some (Navigate WORKSPACE_ACCOUNTING_QUICKBOOKS_ONLINE_EXPORT_DATE_SELECT policyID);
       brickRoadIndicator := indicator "exportDate";
       title := whenTruthy (exportDate qboConfig)
                  (λ exportDate, translate ("workspace.qbo." +:+ exportDate +:+ ".label"));
       shouldShowRightIcon := None |};
    {| description := translate "workspace.qbo.exportExpenses";
       onPress := Some (Navigate WORKSPACE_ACCOUNTING_QUICKBOOKS_ONLINE_EXPORT_OUT_OF_POCKET_EXPENSES policyID);
       brickRoadIndicator := indicator "exportExpenses";
       title := whenTruthy (exportEntity qboConfig)
                  (λ exportEntity, translate ("workspace.qbo." +:+ exportEntity));
       shouldShowRightIcon := None |};
    {| description := translate "workspace.qbo.exportInvoices";
       onPress := Some (Navigate WORKSPACE_ACCOUNTING_QUICKBOOKS_ONLINE_INVOICE_ACCOUNT_SELECT policyID);
       brickRoadIndicator := indicator "exportInvoice";
       title := exportInvoice qboConfig;
       shouldShowRightIcon := None |};
    {| description := translate "workspace.qbo.exportCompany";
       onPress := Some (Navigate WORKSPACE_ACCOUNTING_QUICKBOOKS_ONLINE_COMPANY_CARD_EXPENSE policyID);
       brickRoadIndicator := indicator "exportCompanyCard";
       title := exportCompanyCard qboConfig;
       shouldShowRightIcon := None |};
    {| description := translate "workspace.qbo.exportExpensifyCard";
       onPress := None;
       brickRoadIndicator := None;
       title := Some (translate "workspace.qbo.creditCard");
       shouldShowRightIcon := Some false |} ].

Lemma indicator_error field :
  indicator field = Some ERROR ↔
  ∃ errs msg, errors qboConfig = Some errs ∧ errs !! field = Some msg ∧ msg ≠ "".
Proof.
  unfold indicator, errorField.
  destruct (errors qboConfig) as [errs|]; cbn.
  - destruct (errs !! field) as [msg|] eqn:Hmsg; cbn.
    + unfold truthy. case_decide as Hempty; split; try done.
      * intros (errs' & msg' & [= <-] & Hmsg' & Hne).
        rewrite Hmsg in Hmsg'. by injection Hmsg' as <-.
      * intros _. by exists errs, msg.
    + split; [done|]. intros (errs' & msg' & [= <-] & Hmsg' & _).
      by rewrite Hmsg in Hmsg'.
  - split; [done|]. by intros (? & ? & ? & _).
Qed.

(** The errors field that belongs to each configurable row. *)
Definition configurableRows : list (nat * string) :=
  [ (0%nat, "exporter"); (1%nat, "exportDate"); (2%nat, "exportExpenses");
    (3%nat, "exportInvoice"); (4%nat, "exportCompanyCard") ].

(** C7.  Each of the five configurable rows exists and shows the error
    brick-road indicator exactly when its field of the config's [errors]
    object is set (truthy); the preferred-exporter row is titled with the
    configured exporter, or with the policy owner when no exporter is
    configured; the export-date and export-expenses rows have no title
    when [exportDate], respectively [exportEntity], is unset. *)
Theorem menuItems_spec :
  (∀ i field, (i, field) ∈ configurableRows →
     ∃ item, menuItems !! i = Some item ∧
       (brickRoadIndicator item = Some ERROR ↔
          ∃ errs msg, errors qboConfig = Some errs ∧ errs !! field = Some msg ∧ msg ≠ ""))
  ∧ (∃ row, menuItems !! 0%nat = Some row ∧
       (∀ e, exporter qboConfig = Some e → title row = Some e) ∧
       (exporter qboConfig = None → title row = Some policyOwner))
  ∧ (∃ row, menuItems !! 1%nat = Some row ∧
       (exportDate qboConfig = None → title row = None))
  ∧ (∃ row, menuItems !! 2%nat = Some row ∧
       (exportEntity qboConfig = None → title row = None)).
Proof.
  split; [|split; [|split]].
  - intros i field Hin. unfold configurableRows in Hin.
    repeat (apply elem_of_cons in Hin as [Hin|Hin];
      [injection Hin as -> ->; eexists; split; [reflexivity|]; apply indicator_error|]).
    by apply elem_of_nil in Hin.
  - eexists. split; [reflexivity|]. cbn. split; [by intros e ->|by intros ->].
  - eexists. split; [reflexivity|]. cbn. by intros ->.
  - eexists. split; [reflexivity|]. cbn. by intros ->.
Qed.
(** *** The rows as rendered *)

(** The props each menu item is rendered with, in a
    [MenuItemWithTopDescription] keyed by its description.  No item sets
    [interactive], so [menuItem?.interactive ?? true] is [true]. *)
Record RowProps := {
  row_title : option string;
  row_interactive : bool;
  row_description : string;
  row_shouldShowRightIcon : bool;
  row_onPress : option PressHandler;
  row_brickRoadIndicator : option BrickRoadIndicator
}.

Definition renderRow (menuItem : MenuItemProps) : RowProps :=
  {| row_title := title menuItem;
     row_interactive := true;
     row_description := description menuItem;
     row_shouldShowRightIcon := nullish (shouldShowRightIcon menuItem) true;
     row_onPress := onPress menuItem;
     row_brickRoadIndicator := brickRoadIndicator menuItem |}.

Definition rows : list RowProps := renderRow <$> menuItems.

(** X6.  Six rows are rendered, for every policy.  A row shows the right
    icon exactly when it has an [onPress]; only rows with an [onPress] ever
    show the error indicator; and every [onPress] navigates with the id of
    the policy, or with the empty id when the policy or its id is
    missing. *)
Theorem rows_navigation :
  length rows = 6%nat
  ∧ ∀ row, row ∈ rows →
      (row_shouldShowRightIcon row = true ↔ is_Some (row_onPress row))
      ∧ (is_Some (row_brickRoadIndicator row) → is_Some (row_onPress row))
      ∧ (∀ route target, row_onPress row = Some (Navigate route target) →
           target = nullish (policy ?> id) "").
Proof.
  split; [done|]. intros row Hrow. unfold rows, menuItems in Hrow. cbn in Hrow.
  repeat (apply elem_of_cons in Hrow as [->|Hrow];
    [cbn; split; [by split; eauto|]; split; [by eauto|]; by intros ? ? [= _ <-]|]).
  by apply elem_of_nil in Hrow.
Qed.

(** X7.  Without a QuickBooks Online config (no policy, no connections, no
    [quickbooksOnline] connection or no [config]) no row shows an indicator,
    the preferred-exporter row is titled with the policy owner (the empty
    string when there is none), and of the other rows only the Expensify
    card row has a title. *)
Theorem menuItems_without_config :
  policy ?> connections ?> quickbooksOnline ?> config = None →
  brickRoadIndicator <$> menuItems = [None; None; None; None; None; None]
  ∧ title <$> menuItems
    = [ Some (nullish (policy ?> owner) ""); None; None; None; None;
        Some (translate "workspace.qbo.creditCard") ].
Proof.
  intros Hconfig. unfold menuItems, indicator, qboConfig. by rewrite Hconfig.
Qed.

End Page.

(** A policy whose export date is configured and has a pending error. *)
Definition samplePolicy : option Policy :=
  Some {| id := Some "P1";
          owner := Some "owner@example.com";
          connections := Some {| quickbooksOnline := Some {| config := Some
            {| exporter := None;
               exportDate := Some "REPORT_EXPORTED";
               exportEntity := None;
               exportInvoice := Some "Accounts Receivable";
               exportCompanyCard := None;
               errors := Some {[ "exportDate" := "Could not save the export date" ]} |} |} |} |}.

(** Translations that show their path. *)
Definition showPath (path : string) : string := path.

Example sample_titles :
  title <$> menuItems showPath samplePolicy
  = [ Some "owner@example.com"; Some "workspace.qbo.REPORT_EXPORTED.label"; None;
      Some "Accounts Receivable"; None; Some "workspace.qbo.creditCard" ].
Proof. reflexivity. Qed.

Example sample_indicators :
  brickRoadIndicator <$> menuItems showPath samplePolicy
  = [ None; Some ERROR; None; None; None; None ].
Proof. reflexivity. Qed.

Example no_policy_titles :
  title <$> menuItems showPath None
  = [ Some ""; None; None; None; None; Some "workspace.qbo.creditCard" ].
Proof. reflexivity. Qed.

Lemma menuItems_spec_witness :
  ∃ item, menuItems showPath samplePolicy !! 1%nat = Some item ∧
    (brickRoadIndicator item = Some ERROR ↔
       ∃ errs msg, errors (qboConfig samplePolicy) = Some errs
                   ∧ errs !! "exportDate" = Some msg ∧ msg ≠ "").
Proof.
  apply (proj1 (menuItems_spec showPath samplePolicy) 1%nat "exportDate").
  unfold configurableRows. apply elem_of_cons. right. apply elem_of_cons. by left.
Defined.

Lemma menuItems_without_config_witness :
  brickRoadIndicator <$> menuItems showPath (Some {| id := Some "P1"; owner := Some "owner@example.com"; connections := None |})
  = [None; None; None; None; None; None]
  ∧ title <$> menuItems showPath (Some {| id := Some "P1"; owner := Some "owner@example.com"; connections := None |})
    = [ Some "owner@example.com"; None; None; None; None; Some "workspace.qbo.creditCard" ].
Proof.
  apply (menuItems_without_config showPath
           (Some {| id := Some "P1"; owner := Some "owner@example.com"; connections := None |})).
  reflexivity.
Defined.

End QuickbooksExportConfigurationPage.

(** ** DragAndDropConsumer *)

Module DragAndDropConsumer.

(** The value of a drag-and-drop context, as read by [useContext]. *)
Record DragAndDropContextValue := { isDraggingOver : bool }.

(** Identity of an [onDropCallback] closure: every run of the effect
    creates a new one. *)
Definition CallbackId := nat.

Section Component.
(** [ReactNode] and the functions passed as [onDrop]. *)
Context {ReactNode OnDrop : Type}.

(** The value currently provided for the context that
    [DNDUtils.getDragAndDropContext(dropZoneID)] returns. *)
Variable getDragAndDropContext : string → DragAndDropContextValue.

Record Props := {
  children : ReactNode;
  dropZoneID : string;
  dropZoneHostName : string;
  onDrop : option OnDrop
}.

Inductive Element :=
| Null
| Portal (hostName : string) (content : ReactNode).

(** Calls that leave the component. *)
Inductive Call :=
| registerOnDropCallback (zone : string) (callback : CallbackId)
| deregisterOnDropCallback (zone : string) (callback : CallbackId)
| callOnDrop (f : OnDrop).

(** Hook state of one mounted consumer: [onDropRef.current], the
    dependency array of the effect at its last run, and the
    [onDropCallback] that run created (both are captured by the cleanup
    function the effect returned). *)
Record Hooks := {
  onDropRef : option OnDrop;
  effectDeps : string;
  onDropCallback : CallbackId
}.

Record World := {
  nextCallback : CallbackId;
  log : list Call
}.

Definition emit (c : Call) (w : World) : World :=
  {| nextCallback := nextCallback w; log := log w ++ [c] |}.

(** The value the function component returns. *)
Definition render (p : Props) : Element :=
  if negb (isDraggingOver (getDragAndDropContext (dropZoneID p))) then Null
  else Portal (dropZoneHostName p) (children p).

(** The body of the effect, run for props [p]: it returns the hook state
    holding the new closure and its cleanup. *)
Definition runEffect (p : Props) (w : World) : Hooks * World :=
  let callback := nextCallback w in
  ({| onDropRef := onDrop p; effectDeps := dropZoneID p; onDropCallback := callback |},
   emit (registerOnDropCallback (dropZoneID p) callback)
     {| nextCallback := S callback; log := log w |}).

(** The cleanup function returned by the effect. *)
Definition runCleanup (h : Hooks) (w : World) : World :=
  emit (deregisterOnDropCallback (effectDeps h) (onDropCallback h)) w.

(** First render and commit. *)
Definition mount (p : Props) (w : World) : Hooks * World :=
  runEffect p w.

(** A later render with props [p]: the ref is assigned during render; the
    effect is run again, after the cleanup of its previous run, only when
    [dropZoneID] differs from the stored dependency. *)
Definition update (p : Props) (h : Hooks) (w : World) : Hooks * World :=
  let h' := {| onDropRef := onDrop p; effectDeps := effectDeps h;
               onDropCallback := onDropCallback h |} in
  if decide (effectDeps h = dropZoneID p) then (h', w)
  else runEffect p (runCleanup h' w).

Definition unmount (h : Hooks) (w : World) : World :=
  runCleanup h w.

(** Calling the [onDropCallback] closure of the hook state [h]. *)
Definition invokeOnDropCallback (h : Hooks) (w : World) : World :=
  match onDropRef h with
  | None => w
  | Some f => emit (callOnDrop f) w
  end.

(** A consumer that is mounted with [p] and then rendered again with each
    of [ps] in turn. *)
Definition updates (ps : list Props) (s : Hooks * World) : Hooks * World :=
  foldl (λ s p, update p s.1 s.2) s ps.

Definition newWorld : World := {| nextCallback := 0%nat; log := [] |}.

Definition lifetime (p : Props) (ps : list Props) : Hooks * World :=
  updates ps (mount p newWorld).

(** The props of the latest render. *)
Definition latest (p : Props) (ps : list Props) : Props := List.last ps p.

Definition removeFirst (x : string * CallbackId) (l : list (string * CallbackId))
  : list (string * CallbackId) :=
  (fix go l :=
     match l with
     | [] => []
     | y :: r => if decide (x = y) then r else y :: go r
     end) l.

(** The registrations a log leaves outstanding: each registration, in
    order, that no later deregistration of the same zone and callback has
    taken back. *)
Definition registered (l : list Call) : list (string * CallbackId) :=
  foldl (λ (acc : list (string * CallbackId)) c,
           match c with
           | registerOnDropCallback z cb => (acc ++ [(z, cb)])%list
           | deregisterOnDropCallback z cb => removeFirst (z, cb) acc
           | callOnDrop _ => acc
           end) [] l.

Lemma registered_snoc l c :
  registered (l ++ [c]) =
  match c with
  | registerOnDropCallback z cb => (registered l ++ [(z, cb)])%list
  | deregisterOnDropCallback z cb => removeFirst (z, cb) (registered l)
  | callOnDrop _ => registered l
  end.
Proof. unfold registered. by rewrite foldl_app. Qed.

Lemma removeFirst_singleton x : removeFirst x [x] = [].
Proof. cbn. by case_decide. Qed.

Lemma updates_snoc ps p s :
  updates (ps ++ [p]) s = update p (updates ps s).1 (updates ps s).2.
Proof. unfold updates. by rewrite foldl_app. Qed.

Lemma latest_snoc p ps p' : latest p (ps ++ [p']) = p'.
Proof. unfold latest. apply last_last. Qed.

(** What holds of a mounted consumer after any number of renders. *)
Record Mounted (current : Props) (s : Hooks * World) : Prop := {
  mounted_ref : onDropRef s.1 = onDrop current;
  mounted_deps : effectDeps s.1 = dropZoneID current;
  mounted_registered :
    registered (log s.2) = [(dropZoneID current, onDropCallback s.1)]
}.

Lemma mount_Mounted p : Mounted p (mount p newWorld).
Proof. by split. Qed.

Lemma update_Mounted current p s :
  Mounted current s → Mounted p (update p s.1 s.2).
Proof.
  intros [Href Hdeps Hreg]. unfold update.
  case_decide as Hsame.
  - split; cbn; [done|congruence|]. rewrite Hreg. congruence.
  - split; cbn; [done..|].
    rewrite !registered_snoc, Hreg, Hdeps. by rewrite removeFirst_singleton.
Qed.

Lemma lifetime_Mounted p ps : Mounted (latest p ps) (lifetime p ps).
Proof.
  induction ps as [|p' ps IH] using rev_ind.
  - apply mount_Mounted.
  - unfold lifetime. rewrite updates_snoc, latest_snoc.
    by apply (update_Mounted (latest p ps)).
Qed.

(** C2.  When [isDraggingOver], read from the context of the given
    [dropZoneID], is false the component returns [null]; when it is true
    it returns its children inside a [Portal] whose [hostName] is
    [dropZoneHostName]. *)
Theorem render_spec (p : Props) :
  (isDraggingOver (getDragAndDropContext (dropZoneID p)) = false → render p = Null)
  ∧ (isDraggingOver (getDragAndDropContext (dropZoneID p)) = true →
       render p = Portal (dropZoneHostName p) (children p)).
Proof. unfold render. split; by intros ->. Qed.

(** C8.  Mounting registers exactly one callback, under the given
    [dropZoneID].  After any number of further renders exactly one
    registration is outstanding, under the [dropZoneID] of the latest
    render; a render that keeps [dropZoneID] makes no call and keeps the
    callback, whatever [onDrop] is; a render that changes [dropZoneID]
    deregisters the registered callback and registers a new one under
    the new id; unmounting deregisters the registered callback and leaves
    nothing registered.  Calling the registered callback calls the
    [onDrop] of the latest render, and does nothing when there is none. *)
Theorem registration_balanced (p : Props) (ps : list Props) :
  let h := (lifetime p ps).1 in
  let w := (lifetime p ps).2 in
  let current := latest p ps in
  log (mount p newWorld).2
    = [registerOnDropCallback (dropZoneID p) (onDropCallback (mount p newWorld).1)]
  ∧ registered (log w) = [(dropZoneID current, onDropCallback h)]
  ∧ (∀ p', dropZoneID p' = dropZoneID current →
       (update p' h w).2 = w ∧ onDropCallback (update p' h w).1 = onDropCallback h)
  ∧ (∀ p', dropZoneID p' ≠ dropZoneID current →
       log (update p' h w).2
       = (log w ++ [deregisterOnDropCallback (dropZoneID current) (onDropCallback h);
                    registerOnDropCallback (dropZoneID p') (onDropCallback (update p' h w).1)])%list)
  ∧ (log (unmount h w)
       = (log w ++ [deregisterOnDropCallback (dropZoneID current) (onDropCallback h)])%list
     ∧ registered (log (unmount h w)) = [])
  ∧ (∀ f, onDrop current = Some f →
       log (invokeOnDropCallback h w) = (log w ++ [callOnDrop f])%list)
  ∧ (onDrop current = None → invokeOnDropCallback h w = w).
Proof.
  intros h w current.
  destruct (lifetime_Mounted p ps) as [Href Hdeps Hreg].
  fold h in Href, Hdeps, Hreg. fold w in Hreg. fold current in Href, Hdeps, Hreg.
  split; [done|]. split; [done|]. split; [|split; [|split; [|split]]].
  - intros p' Hsame. unfold update. by rewrite decide_True by congruence.
  - intros p' Hdiff. unfold update. rewrite decide_False by congruence.
    cbn. rewrite Hdeps. by rewrite <- app_assoc.
  - unfold unmount, runCleanup. cbn. rewrite Hdeps. split; [done|].
    by rewrite registered_snoc, Hreg, removeFirst_singleton.
  - intros f Hf. unfold invokeOnDropCallback. by rewrite Href, Hf.
  - intros Hnone. unfold invokeOnDropCallback. by rewrite Href, Hnone.
Qed.

(** *** The registry calls of a whole lifetime *)

Definition isRegister (c : Call) : bool :=
  match c with registerOnDropCallback _ _ => true | _ => false end.

Definition isDeregister (c : Call) : bool :=
  match c with deregisterOnDropCallback _ _ => true | _ => false end.

Definition isOnDropCall (c : Call) : bool :=
  match c with callOnDrop _ => true | _ => false end.

(** The number of renders in [ps] whose [dropZoneID] differs from that of
    the render before, [current] being the one before the first. *)
Fixpoint zoneChanges (current : string) (ps : list Props) : nat :=
  match ps with
  | [] => 0%nat
  | p :: rest =>
      ((if decide (current = dropZoneID p) then 0 else 1) + zoneChanges (dropZoneID p) rest)%nat
  end.

Lemma updates_cons p ps s :
  updates (p :: ps) s = updates ps (update p s.1 s.2).
Proof. reflexivity. Qed.

Lemma update_effectDeps p h w : effectDeps (update p h w).1 = dropZoneID p.
Proof. unfold update. by case_decide. Qed.

Lemma updates_counts ps s :
  let s' := updates ps s in
  length (List.filter isRegister (log s'.2))
    = (length (List.filter isRegister (log s.2)) + zoneChanges (effectDeps s.1) ps)%nat
  ∧ length (List.filter isDeregister (log s'.2))
    = (length (List.filter isDeregister (log s.2)) + zoneChanges (effectDeps s.1) ps)%nat
  ∧ length (List.filter isOnDropCall (log s'.2))
    = length (List.filter isOnDropCall (log s.2)).
Proof.
  revert s. induction ps as [|p ps IH]; intros s; cbn zeta.
  - cbn. by rewrite !Nat.add_0_r.
  - rewrite updates_cons.
    destruct (IH (update p s.1 s.2)) as (Hreg & Hdereg & Hdrop). cbn zeta in *.
    rewrite Hreg, Hdereg, Hdrop, update_effectDeps. clear IH Hreg Hdereg Hdrop.
    cbn [zoneChanges]. unfold update. case_decide as Hsame; cbn.
    + done.
    + rewrite !List.filter_app, !length_app. cbn. repeat split; lia.
Qed.

(** X1.  Renders that keep the [dropZoneID] of the mount never touch the
    registry, however many there are and whatever [onDrop] they bring: the
    log holds the one registration of the mount, the registered callback is
    still the first closure, and it calls the [onDrop] of the latest
    render. *)
Theorem stable_zone_single_registration (p : Props) (ps : list Props) :
  Forall (λ q, dropZoneID q = dropZoneID p) ps →
  log (lifetime p ps).2 = [registerOnDropCallback (dropZoneID p) 0%nat]
  ∧ onDropCallback (lifetime p ps).1 = 0%nat
  ∧ onDropRef (lifetime p ps).1 = onDrop (latest p ps).
Proof.
  intros Hzone.
  cut (log (lifetime p ps).2 = [registerOnDropCallback (dropZoneID p) 0%nat]
       ∧ onDropCallback (lifetime p ps).1 = 0%nat
       ∧ onDropRef (lifetime p ps).1 = onDrop (latest p ps)
       ∧ effectDeps (lifetime p ps).1 = dropZoneID p).
  { intros (? & ? & ? & _). done. }
  induction ps as [|q ps IH] using rev_ind; [done|].
  apply Forall_app in Hzone as [Hps Hq]. apply List.Forall_inv in Hq.
  destruct (IH Hps) as (Hlog & Hcb & _ & Hdeps).
  unfold lifetime in *. rewrite updates_snoc, latest_snoc. unfold update.
  by rewrite decide_True by congruence.
Qed.

(** X2.  Over a lifetime the consumer registers once at mount and once more
    for every render that changes [dropZoneID], deregisters once for every
    such render and once at unmount, so that registrations and
    deregistrations are equal in number once it is unmounted; and mounting,
    rendering and unmounting never call [onDrop]. *)
Theorem lifetime_registry_calls (p : Props) (ps : list Props) :
  let mounted := log (lifetime p ps).2 in
  let final := log (unmount (lifetime p ps).1 (lifetime p ps).2) in
  length (List.filter isRegister mounted) = S (zoneChanges (dropZoneID p) ps)
  ∧ length (List.filter isDeregister mounted) = zoneChanges (dropZoneID p) ps
  ∧ length (List.filter isRegister final) = length (List.filter isDeregister final)
  ∧ List.filter isOnDropCall final = [].
Proof.
  cbn zeta. destruct (updates_counts ps (mount p newWorld)) as (Hreg & Hdereg & Hdrop).
  cbn zeta in *. fold (lifetime p ps) in Hreg, Hdereg, Hdrop.
  cbn in Hreg, Hdereg, Hdrop.
  split; [done|]. split; [done|]. unfold unmount, runCleanup. cbn.
  rewrite !List.filter_app, !length_app. cbn. rewrite Hreg, Hdereg, app_nil_r.
  split; [lia|]. by apply length_zero_iff_nil.
Qed.

End Component.

Arguments Props : clear implicits.
Arguments Element : clear implicits.
Arguments Call : clear implicits.
Arguments Hooks : clear implicits.
Arguments World : clear implicits.

(** A consumer on concrete props: one drop zone is being dragged over. *)
Definition sampleContext (zone : string) : DragAndDropContextValue :=
  {| isDraggingOver := bool_decide (zone = "composer") |}.

Definition sampleProps (zone : string) (handler : option nat) : Props string nat :=
  {| children := "Drop to upload";
     dropZoneID := zone;
     dropZoneHostName := "DropZone_" +:+ zone;
     onDrop := handler |}.

Example render_dragging :
  render sampleContext (sampleProps "composer" None)
  = Portal "DropZone_composer" "Drop to upload".
Proof. reflexivity. Qed.

Example render_idle :
  render sampleContext (sampleProps "sidebar" None) = Null.
Proof. reflexivity. Qed.

(** Mounted on "composer", re-rendered with another [onDrop], moved to
    "sidebar", then unmounted. *)
Example sample_lifetime_log :
  let s := lifetime (sampleProps "composer" (Some 1%nat))
             [sampleProps "composer" (Some 2%nat); sampleProps "sidebar" (Some 2%nat)] in
  log (unmount s.1 s.2)
  = [ registerOnDropCallback "composer" 0%nat;
      deregisterOnDropCallback "composer" 0%nat;
      registerOnDropCallback "sidebar" 1%nat;
      deregisterOnDropCallback "sidebar" 1%nat ].
Proof. reflexivity. Qed.

Lemma render_spec_witness :
  render sampleContext (sampleProps "composer" (Some 1%nat))
  = Portal "DropZone_composer" "Drop to upload".
Proof.
  apply (proj2 (render_spec sampleContext (sampleProps "composer" (Some 1%nat)))).
  reflexivity.
Defined.

Lemma registration_balanced_witness :
  let s := lifetime (sampleProps "composer" (Some 1%nat))
             [sampleProps "composer" (Some 2%nat)] in
  log (invokeOnDropCallback s.1 s.2) = (log s.2 ++ [callOnDrop 2%nat])%list.
Proof.
  apply (proj1 (proj2 (proj2 (proj2 (proj2 (proj2
           (registration_balanced (sampleProps "composer" (Some 1%nat))
              [sampleProps "composer" (Some 2%nat)])))))) 2%nat).
  reflexivity.
Defined.

Lemma stable_zone_single_registration_witness :
  log (lifetime (sampleProps "composer" (Some 1%nat))
         [sampleProps "composer" (Some 2%nat); sampleProps "composer" None]).2
  = [registerOnDropCallback "composer" 0%nat]
  ∧ onDropCallback (lifetime (sampleProps "composer" (Some 1%nat))
         [sampleProps "composer" (Some 2%nat); sampleProps "composer" None]).1 = 0%nat
  ∧ onDropRef (lifetime (sampleProps "composer" (Some 1%nat))
         [sampleProps "composer" (Some 2%nat); sampleProps "composer" None]).1
    = onDrop (latest (sampleProps "composer" (Some 1%nat))
         [sampleProps "composer" (Some 2%nat); sampleProps "composer" None]).
Proof.
  apply (stable_zone_single_registration (sampleProps "composer" (Some 1%nat))
           [sampleProps "composer" (Some 2%nat); sampleProps "composer" None]).
  repeat constructor.
Defined.

End DragAndDropConsumer.

(** ** Translation keys: the helpers of the localization tests *)

Module TranslationKeys.

(** A value of a translations object: a string or a function (whose
    [typeof] is not ['object']), or a nested object given by its keys, in
    the order of [Object.keys], and their values (an array is the object
    of its indices). *)
#[warnings="-register-all"]
Inductive Value :=
| VString (s : string)
| VFunction
| VObject (fields : list (string * Value)).

(** [path ? `${path}.` : ''] *)
Definition keyPathOf (path : option string) : string :=
  match path with
  | Some p => if truthy p then p +:+ "." else ""
  | None => ""
  end.

(** [traverseKeyPath(source, path, keyPaths)].  [source] is an object at
    every call: the tests pass a translations object, and the function calls
    itself only on values whose [typeof] is ['object'].  [pathArray] is the
    array that was passed in, so its contents stay and the paths are pushed
    behind them. *)
Fixpoint traverseKeyPath (source : Value) (path : option string)
    (keyPaths : option (list string)) : list string :=
  let pathArray := nullish keyPaths [] in
  let keyPath := keyPathOf path in
  match source with
  | VObject fields =>
      (fix forEach (keys : list (string * Value)) (pathArray : list string) : list string :=
         match keys with
         | [] => pathArray
         | (key, value) :: rest =>
             forEach rest
               match value with
               | VObject _ => traverseKeyPath value (Some (keyPath +:+ key)) (Some pathArray)
               | _ => (pathArray ++ [keyPath +:+ key])%list
               end
         end) fields pathArray
  | _ => pathArray
  end.

(** [[array1, array2].reduce((a, b) => a.filter((c) => !b.includes(c)))] *)
Definition arrayDifference (array1 array2 : list string) : list string :=
  foldl (λ a b, filter (λ c, c ∉ b) a) array1 [array2].

(** The number of strings and functions in a value, at any depth. *)
Fixpoint leaves (v : Value) : nat :=
  match v with
  | VObject fields =>
      (fix sum (keys : list (string * Value)) : nat :=
         match keys with
         | [] => 0%nat
         | (_, value) :: rest => (leaves value + sum rest)%nat
         end) fields
  | _ => 1%nat
  end.

(** [prefix] is a prefix of [s]. *)
Definition startsWith (prefix s : string) : Prop := ∃ rest, s = prefix +:+ rest.

(** Induction on values, with the hypothesis for every field of an object. *)
Lemma Value_nested_ind (P : Value → Prop) :
  (∀ s, P (VString s)) →
  P VFunction →
  (∀ fields, Forall (λ field, P field.2) fields → P (VObject fields)) →
  ∀ v, P v.
Proof.
  intros Hstring Hfunction Hobject.
  fix IH 1. intros [s| |fields]; [apply Hstring|apply Hfunction|].
  apply Hobject. induction fields as [|[key value] rest IHrest]; constructor.
  - apply IH.
  - apply IHrest.
Qed.

(** What the loop does for one key, given the array so far. *)
Definition visitKey (keyPath : string) (pathArray : list string)
    (field : string * Value) : list string :=
  match field.2 with
  | VObject _ => traverseKeyPath field.2 (Some (keyPath +:+ field.1)) (Some pathArray)
  | _ => (pathArray ++ [keyPath +:+ field.1])%list
  end.

(** The key paths one key contributes. *)
Definition keyPathsOfKey (keyPath : string) (field : string * Value) : list string :=
  visitKey keyPath [] field.

Lemma traverseKeyPath_object fields path keyPaths :
  traverseKeyPath (VObject fields) path keyPaths
  = foldl (visitKey (keyPathOf path)) (nullish keyPaths []) fields.
Proof.
  cbn. generalize (nullish keyPaths []).
  induction fields as [|[key value] rest IH]; intros acc; [done|].
  cbn [foldl]. rewrite <- IH. unfold visitKey. cbn. by destruct value.
Qed.

Lemma append_assoc (a b c : string) : (a +:+ b) +:+ c = a +:+ (b +:+ c).
Proof.
  induction a as [|x a IH]; [done|].
  change (String x ((a +:+ b) +:+ c) = String x (a +:+ (b +:+ c))). by rewrite IH.
Qed.

Lemma append_truthy (a b : string) : a ≠ "" → truthy (a +:+ b) = true.
Proof. by destruct a. Qed.

Lemma traverseKeyPath_accumulates v path pathArray :
  traverseKeyPath v path (Some pathArray)
  = (pathArray ++ traverseKeyPath v path None)%list.
Proof.
  revert path pathArray. induction v as [s| |fields IH] using Value_nested_ind;
    intros path pathArray; [by rewrite app_nil_r..|].
  rewrite !traverseKeyPath_object. cbn [nullish].
  generalize (keyPathOf path). intros keyPath.
  assert (Hvisit : ∀ acc field, field ∈ fields →
            visitKey keyPath acc field = (acc ++ visitKey keyPath [] field)%list).
  { intros acc [key value] Hin. unfold visitKey. cbn.
    rewrite Forall_forall in IH. specialize (IH _ Hin). cbn in IH.
    destruct value; [done..|]. by rewrite IH, (IH _ []). }
  clear IH. revert pathArray.
  induction fields as [|field rest IHrest]; intros pathArray; [by rewrite app_nil_r|].
  assert (Hrest : ∀ acc f, f ∈ rest → visitKey keyPath acc f
                                     = (acc ++ visitKey keyPath [] f)%list).
  { intros acc f Hf. apply Hvisit. by right. }
  cbn [foldl].
  rewrite (IHrest Hrest (visitKey keyPath pathArray field)).
  rewrite (IHrest Hrest (visitKey keyPath [] field)).
  rewrite (Hvisit pathArray field) by left. by rewrite app_assoc.
Qed.

Lemma visitKey_accumulates keyPath pathArray field :
  visitKey keyPath pathArray field = (pathArray ++ keyPathsOfKey keyPath field)%list.
Proof.
  unfold keyPathsOfKey, visitKey. destruct field as [key [s| |fields]]; cbn [fst snd]; try done.
  by rewrite traverseKeyPath_accumulates,
    (traverseKeyPath_accumulates _ _ []).
Qed.

Lemma foldl_visitKey keyPath pathArray fields :
  foldl (visitKey keyPath) pathArray fields
  = (pathArray ++ concat (keyPathsOfKey keyPath <$> fields))%list.
Proof.
  revert pathArray. induction fields as [|field rest IH]; intros pathArray.
  - by rewrite app_nil_r.
  - rewrite fmap_cons. cbn [foldl concat].
    by rewrite IH, visitKey_accumulates, app_assoc.
Qed.

(** X8.  [traverseKeyPath] keeps what the array it is given holds and
    pushes behind it, key by key in the order of the keys, the key paths of
    each key: the key itself, behind the prefix, for a string or a function,
    and the key paths of the nested object otherwise. *)
Theorem traverseKeyPath_concat fields path pathArray :
  traverseKeyPath (VObject fields) path (Some pathArray)
  = (pathArray ++ concat (keyPathsOfKey (keyPathOf path) <$> fields))%list
  ∧ ∀ key value,
      keyPathsOfKey (keyPathOf path) (key, value)
      = match value with
        | VObject _ => traverseKeyPath value (Some (keyPathOf path +:+ key)) None
        | _ => [keyPathOf path +:+ key]
        end.
Proof.
  split.
  - by rewrite traverseKeyPath_object, foldl_visitKey.
  - intros key value. unfold keyPathsOfKey, visitKey. cbn.
    destruct value; [done..|]. by rewrite traverseKeyPath_accumulates.
Qed.

Lemma keyPathsOfKey_object keyPath key fields :
  keyPathsOfKey keyPath (key, VObject fields)
  = concat (keyPathsOfKey (keyPathOf (Some (keyPath +:+ key))) <$> fields).
Proof.
  unfold keyPathsOfKey at 1, visitKey. cbn [fst snd].
  by rewrite traverseKeyPath_object, foldl_visitKey.
Qed.

Lemma keyPathsOfKey_length v :
  ∀ keyPath key, length (keyPathsOfKey keyPath (key, v)) = leaves v.
Proof.
  induction v as [s| |fields IH] using Value_nested_ind; intros keyPath key; [done..|].
  rewrite keyPathsOfKey_object. generalize (keyPathOf (Some (keyPath +:+ key))).
  intros nested. induction IH as [|[k value] rest Hvalue _ IHrest]; [done|].
  rewrite fmap_cons. cbn [concat]. rewrite length_app, IHrest, Hvalue. done.
Qed.

(** X9.  [traverseKeyPath] returns one key path for every string and
    function of the object, at any depth; a key that holds an object
    without any of them, the empty object for one, adds no key path. *)
Theorem traverseKeyPath_length fields path :
  length (traverseKeyPath (VObject fields) path None) = leaves (VObject fields).
Proof.
  rewrite traverseKeyPath_object, foldl_visitKey. cbn [nullish app].
  generalize (keyPathOf path). intros keyPath.
  induction fields as [|[key value] rest IH]; [done|].
  rewrite fmap_cons. cbn [concat]. by rewrite length_app, IH, keyPathsOfKey_length.
Qed.

Lemma elem_of_concat (x : string) (ls : list (list string)) :
  x ∈ concat ls ↔ ∃ l, x ∈ l ∧ l ∈ ls.
Proof.
  induction ls as [|l ls IH]; cbn.
  - split; [by intros ?%elem_of_nil|by intros (? & _ & ?%elem_of_nil)].
  - rewrite elem_of_app, IH. split.
    + intros [Hx|(l' & Hx & Hl')]; [exists l; split; [done|by left]|].
      exists l'. split; [done|by right].
    + intros (l' & Hx & [->|Hl']%elem_of_cons); [by left|]. right. by exists l'.
Qed.

Lemma keyPathsOfKey_startsWith v :
  ∀ keyPath key x, x ∈ keyPathsOfKey keyPath (key, v) → startsWith keyPath x.
Proof.
  induction v as [s| |fields IH] using Value_nested_ind; intros keyPath key x.
  - intros ->%list_elem_of_singleton. by eexists.
  - intros ->%list_elem_of_singleton. by eexists.
  - rewrite keyPathsOfKey_object. intros Hx.
    apply elem_of_concat in Hx as (paths & Hx & Hpaths).
    apply list_elem_of_fmap in Hpaths as ([k value] & -> & Hfield).
    rewrite Forall_forall in IH. apply (IH _ Hfield) in Hx as [rest ->].
    unfold keyPathOf, truthy. case_decide as Hempty.
    + destruct keyPath; [|done]. by eexists.
    + exists (key +:+ "." +:+ rest). by rewrite !append_assoc.
Qed.

(** X10.  Every key path that [traverseKeyPath] returns for an object
    starts with the prefix of the call: with [path] followed by a dot when
    [path] is a non-empty string, and with nothing otherwise. *)
Theorem traverseKeyPath_prefix fields path x :
  x ∈ traverseKeyPath (VObject fields) path None →
  startsWith (keyPathOf path) x.
Proof.
  rewrite traverseKeyPath_object, foldl_visitKey. cbn [nullish app].
  intros Hx. apply elem_of_concat in Hx as (paths & Hx & Hpaths).
  apply list_elem_of_fmap in Hpaths as ([key value] & -> & _).
  by apply keyPathsOfKey_startsWith in Hx.
Qed.

(** X11.  [arrayDifference] keeps, in their order, the elements of the
    first array that the second does not include; it is empty exactly when
    the second array includes every element of the first. *)
Theorem arrayDifference_spec (array1 array2 : list string) :
  (∀ x, x ∈ arrayDifference array1 array2 ↔ x ∈ array1 ∧ x ∉ array2)
  ∧ sublist (arrayDifference array1 array2) array1
  ∧ (arrayDifference array1 array2 = [] ↔ ∀ x, x ∈ array1 → x ∈ array2).
Proof.
  unfold arrayDifference. cbn [foldl]. split; [|split].
  - intros x. rewrite list_elem_of_filter. tauto.
  - apply sublist_filter.
  - split.
    + intros Hempty x Hx. destruct (decide (x ∈ array2)) as [|Hout]; [done|].
      assert (Hin : x ∈ filter (λ c, c ∉ array2) array1) by by apply list_elem_of_filter.
      rewrite Hempty in Hin. by apply elem_of_nil in Hin.
    + intros Hall. apply elem_of_nil_inv. intros x [Hout Hin]%list_elem_of_filter.
      by apply Hout, Hall.
Qed.

(** The object of the [flattenObject] test, with [content] a function and
    [messages] an array. *)
Definition simpleObject : list (string * Value) :=
  [ ("common", VObject [ ("yes", VString "Yes"); ("no", VString "No") ]);
    ("complex", VObject
       [ ("activity", VObject [ ("none", VString "No Activity");
                                ("some", VString "Some Activity") ]);
         ("report", VObject
            [ ("title", VObject [ ("expense", VString "Expense"); ("task", VString "Task") ]);
              ("description", VObject [ ("none", VString "No description") ]);
              ("content", VFunction);
              ("messages", VObject [ ("0", VString "Hello"); ("1", VString "Hi");
                                     ("2", VString "Sup!") ]) ]) ]) ].

Example traverse_simpleObject :
  traverseKeyPath (VObject simpleObject) None None
  = [ "common.yes"; "common.no"; "complex.activity.none"; "complex.activity.some";
      "complex.report.title.expense"; "complex.report.title.task";
      "complex.report.description.none"; "complex.report.content";
      "complex.report.messages.0"; "complex.report.messages.1";
      "complex.report.messages.2" ].
Proof. reflexivity. Qed.

Example missing_keys :
  arrayDifference ["testKey1"; "testKey2"; "testKey3"] ["testKey2"; "testKey1"]
  = ["testKey3"].
Proof. reflexivity. Qed.

Lemma traverseKeyPath_prefix_witness :
  startsWith "complex.report." "complex.report.title.task".
Proof.
  apply (traverseKeyPath_prefix
           [ ("title", VObject [ ("expense", VString "Expense"); ("task", VString "Task") ]) ]
           (Some "complex.report") "complex.report.title.task").
  right. left.
Defined.

End TranslationKeys.

(** ** AttachmentModal *)

Module AttachmentModal.

(** [CONST.MODAL.MODAL_TYPE], the two values the component uses. *)
Inductive MODAL_TYPE := CENTERED | CENTERED_UNSWIPEABLE.

(** [CONST.EDIT_REQUEST_FIELD], the value the component uses. *)
Inductive EDIT_REQUEST_FIELD := RECEIPT.

(** A DOM [File]. *)
Module File.
Record t := mk { name : string; size : Z; type : string }.
End File.

Module ImagePickerResponse.
Record t := mk {
  height : Z;
  name : string;
  size : Z;
  type : string;
  uri : string;
  width : Z
}.
End ImagePickerResponse.

(** The object held by the [file] state, of type [Partial<File>]: any of
    its properties may be undefined.  It is [{name: originalFileName}], a
    [File] or an [ImagePickerResponse]; [lodashExtend] adds [source]. *)
Module PartialFile.
Record t := mk {
  name : option string;
  size : option Z;
  type : option string;
  uri : option string;
  height : option Z;
  width : option Z;
  source : option string
}.

Definition empty : t := mk None None None None None None None.

Definition ofName (n : string) : t := mk (Some n) None None None None None None.

Definition ofFile (f : File.t) : t :=
  mk (Some (File.name f)) (Some (File.size f)) (Some (File.type f)) None None None None.

Definition ofImagePickerResponse (r : ImagePickerResponse.t) : t :=
  mk (Some (ImagePickerResponse.name r)) (Some (ImagePickerResponse.size r))
     (Some (ImagePickerResponse.type r)) (Some (ImagePickerResponse.uri r))
     (Some (ImagePickerResponse.height r)) (Some (ImagePickerResponse.width r)) None.

Definition setSource (s : string) (f : t) : t :=
  mk (name f) (size f) (type f) (uri f) (height f) (width f) (Some s).
End PartialFile.

(** [lodashExtend(file, {source})]: assigns [source] on [file] and returns
    it; on [undefined] it returns a new object with that one property. *)
Definition lodashExtend (file : option PartialFile.t) (source : string) : PartialFile.t :=
  match file with
  | Some f => PartialFile.setSource source f
  | None => PartialFile.setSource source PartialFile.empty
  end.

Record FileSystemEntry := { isDirectory : bool }.

(** What [displayFileInModal] receives: a [File], an [ImagePickerResponse],
    or (from drag-and-drop and paste) a [DataTransferItem], given by what
    its [webkitGetAsEntry()] and [getAsFile()] return. *)
Inductive Data :=
| DataFile (f : File.t)
| DataImagePickerResponse (r : ImagePickerResponse.t)
| DataTransferItem (webkitGetAsEntry : option FileSystemEntry) (getAsFile : option File.t).

Record Report := {
  reportID : string;
  parentReportActionID : option string
}.

Record Attachment := {
  attachment_source : string;
  attachment_isAuthTokenRequired : bool;
  attachment_file : PartialFile.t;
  attachment_isReceipt : bool
}.

(** The hook state of the component, one field per [useState]. *)
Record State := {
  isModalOpen : bool;
  shouldLoadAttachment : bool;
  isAttachmentInvalid : bool;
  isDeleteReceiptConfirmModalVisible : bool;
  isAuthTokenRequiredState : bool;
  attachmentInvalidReasonTitle : string;
  attachmentInvalidReason : option string;
  sourceState : string;
  modalType : MODAL_TYPE;
  isConfirmButtonDisabled : bool;
  isDownloadButtonReadyToBeShown : bool;
  file : option PartialFile.t
}.

Definition withIsModalOpen (v : bool) (s : State) : State :=
  {| isModalOpen := v;
     shouldLoadAttachment := shouldLoadAttachment s;
     isAttachmentInvalid := isAttachmentInvalid s;
     isDeleteReceiptConfirmModalVisible := isDeleteReceiptConfirmModalVisible s;
     isAuthTokenRequiredState := isAuthTokenRequiredState s;
     attachmentInvalidReasonTitle := attachmentInvalidReasonTitle s;
     attachmentInvalidReason := attachmentInvalidReason s;
     sourceState := sourceState s;
     modalType := modalType s;
     isConfirmButtonDisabled := isConfirmButtonDisabled s;
     isDownloadButtonReadyToBeShown := isDownloadButtonReadyToBeShown s;
     file := file s |}.

Definition withShouldLoadAttachment (v : bool) (s : State) : State :=
  {| isModalOpen := isModalOpen s;
     shouldLoadAttachment := v;
     isAttachmentInvalid := isAttachmentInvalid s;
     isDeleteReceiptConfirmModalVisible := isDeleteReceiptConfirmModalVisible s;
     isAuthTokenRequiredState := isAuthTokenRequiredState s;
     attachmentInvalidReasonTitle := attachmentInvalidReasonTitle s;
     attachmentInvalidReason := attachmentInvalidReason s;
     sourceState := sourceState s;
     modalType := modalType s;
     isConfirmButtonDisabled := isConfirmButtonDisabled s;
     isDownloadButtonReadyToBeShown := isDownloadButtonReadyToBeShown s;
     file := file s |}.

Definition withIsAttachmentInvalid (v : bool) (s : State) : State :=
  {| isModalOpen := isModalOpen s;
     shouldLoadAttachment := shouldLoadAttachment s;
     isAttachmentInvalid := v;
     isDeleteReceiptConfirmModalVisible := isDeleteReceiptConfirmModalVisible s;
     isAuthTokenRequiredState := isAuthTokenRequiredState s;
     attachmentInvalidReasonTitle := attachmentInvalidReasonTitle s;
     attachmentInvalidReason := attachmentInvalidReason s;
     sourceState := sourceState s;
     modalType := modalType s;
     isConfirmButtonDisabled := isConfirmButtonDisabled s;
     isDownloadButtonReadyToBeShown := isDownloadButtonReadyToBeShown s;
     file := file s |}.

Definition withIsDeleteReceiptConfirmModalVisible (v : bool) (s : State) : State :=
  {| isModalOpen := isModalOpen s;
     shouldLoadAttachment := shouldLoadAttachment s;
     isAttachmentInvalid := isAttachmentInvalid s;
     isDeleteReceiptConfirmModalVisible := v;
     isAuthTokenRequiredState := isAuthTokenRequiredState s;
     attachmentInvalidReasonTitle := attachmentInvalidReasonTitle s;
     attachmentInvalidReason := attachmentInvalidReason s;
     sourceState := sourceState s;
     modalType := modalType s;
     isConfirmButtonDisabled := isConfirmButtonDisabled s;
     isDownloadButtonReadyToBeShown := isDownloadButtonReadyToBeShown s;
     file := file s |}.

Definition withIsAuthTokenRequiredState (v : bool) (s : State) : State :=
  {| isModalOpen := isModalOpen s;
     shouldLoadAttachment := shouldLoadAttachment s;
     isAttachmentInvalid := isAttachmentInvalid s;
     isDeleteReceiptConfirmModalVisible := isDeleteReceiptConfirmModalVisible s;
     isAuthTokenRequiredState := v;
     attachmentInvalidReasonTitle := attachmentInvalidReasonTitle s;
     attachmentInvalidReason := attachmentInvalidReason s;
     sourceState := sourceState s;
     modalType := modalType s;
     isConfirmButtonDisabled := isConfirmButtonDisabled s;
     isDownloadButtonReadyToBeShown := isDownloadButtonReadyToBeShown s;
     file := file s |}.

Definition withAttachmentInvalidReasonTitle (v : string) (s : State) : State :=
  {| isModalOpen := isModalOpen s;
     shouldLoadAttachment := shouldLoadAttachment s;
     isAttachmentInvalid := isAttachmentInvalid s;
     isDeleteReceiptConfirmModalVisible := isDeleteReceiptConfirmModalVisible s;
     isAuthTokenRequiredState := isAuthTokenRequiredState s;
     attachmentInvalidReasonTitle := v;
     attachmentInvalidReason := attachmentInvalidReason s;
     sourceState := sourceState s;
     modalType := modalType s;
     isConfirmButtonDisabled := isConfirmButtonDisabled s;
     isDownloadButtonReadyToBeShown := isDownloadButtonReadyToBeShown s;
     file := file s |}.

Definition withAttachmentInvalidReason (v : option string) (s : State) : State :=
  {| isModalOpen := isModalOpen s;
     shouldLoadAttachment := shouldLoadAttachment s;
     isAttachmentInvalid := isAttachmentInvalid s;
     isDeleteReceiptConfirmModalVisible := isDeleteReceiptConfirmModalVisible s;
     isAuthTokenRequiredState := isAuthTokenRequiredState s;
     attachmentInvalidReasonTitle := attachmentInvalidReasonTitle s;
     attachmentInvalidReason := v;
     sourceState := sourceState s;
     modalType := modalType s;
     isConfirmButtonDisabled := isConfirmButtonDisabled s;
     isDownloadButtonReadyToBeShown := isDownloadButtonReadyToBeShown s;
     file := file s |}.

Definition withSourceState (v : string) (s : State) : State :=
  {| isModalOpen := isModalOpen s;
     shouldLoadAttachment := shouldLoadAttachment s;
     isAttachmentInvalid := isAttachmentInvalid s;
     isDeleteReceiptConfirmModalVisible := isDeleteReceiptConfirmModalVisible s;
     isAuthTokenRequiredState := isAuthTokenRequiredState s;
     attachmentInvalidReasonTitle := attachmentInvalidReasonTitle s;
     attachmentInvalidReason := attachmentInvalidReason s;
     sourceState := v;
     modalType := modalType s;
     isConfirmButtonDisabled := isConfirmButtonDisabled s;
     isDownloadButtonReadyToBeShown := isDownloadButtonReadyToBeShown s;
     file := file s |}.

Definition withModalType (v : MODAL_TYPE) (s : State) : State :=
  {| isModalOpen := isModalOpen s;
     shouldLoadAttachment := shouldLoadAttachment s;
     isAttachmentInvalid := isAttachmentInvalid s;
     isDeleteReceiptConfirmModalVisible := isDeleteReceiptConfirmModalVisible s;
     isAuthTokenRequiredState := isAuthTokenRequiredState s;
     attachmentInvalidReasonTitle := attachmentInvalidReasonTitle s;
     attachmentInvalidReason := attachmentInvalidReason s;
     sourceState := sourceState s;
     modalType := v;
     isConfirmButtonDisabled := isConfirmButtonDisabled s;
     isDownloadButtonReadyToBeShown := isDownloadButtonReadyToBeShown s;
     file := file s |}.

Definition withIsConfirmButtonDisabled (v : bool) (s : State) : State :=
  {| isModalOpen := isModalOpen s;
     shouldLoadAttachment := shouldLoadAttachment s;
     isAttachmentInvalid := isAttachmentInvalid s;
     isDeleteReceiptConfirmModalVisible := isDeleteReceiptConfirmModalVisible s;
     isAuthTokenRequiredState := isAuthTokenRequiredState s;
     attachmentInvalidReasonTitle := attachmentInvalidReasonTitle s;
     attachmentInvalidReason := attachmentInvalidReason s;
     sourceState := sourceState s;
     modalType := modalType s;
     isConfirmButtonDisabled := v;
     isDownloadButtonReadyToBeShown := isDownloadButtonReadyToBeShown s;
     file := file s |}.

Definition withIsDownloadButtonReadyToBeShown (v : bool) (s : State) : State :=
  {| isModalOpen := isModalOpen s;
     shouldLoadAttachment := shouldLoadAttachment s;
     isAttachmentInvalid := isAttachmentInvalid s;
     isDeleteReceiptConfirmModalVisible := isDeleteReceiptConfirmModalVisible s;
     isAuthTokenRequiredState := isAuthTokenRequiredState s;
     attachmentInvalidReasonTitle := attachmentInvalidReasonTitle s;
     attachmentInvalidReason := attachmentInvalidReason s;
     sourceState := sourceState s;
     modalType := modalType s;
     isConfirmButtonDisabled := isConfirmButtonDisabled s;
     isDownloadButtonReadyToBeShown := v;
     file := file s |}.

Definition withFile (v : option PartialFile.t) (s : State) : State :=
  {| isModalOpen := isModalOpen s;
     shouldLoadAttachment := shouldLoadAttachment s;
     isAttachmentInvalid := isAttachmentInvalid s;
     isDeleteReceiptConfirmModalVisible := isDeleteReceiptConfirmModalVisible s;
     isAuthTokenRequiredState := isAuthTokenRequiredState s;
     attachmentInvalidReasonTitle := attachmentInvalidReasonTitle s;
     attachmentInvalidReason := attachmentInvalidReason s;
     sourceState := sourceState s;
     modalType := modalType s;
     isConfirmButtonDisabled := isConfirmButtonDisabled s;
     isDownloadButtonReadyToBeShown := isDownloadButtonReadyToBeShown s;
     file := v |}.

(** [Expensicons], the icons of the three-dots menu. *)
Inductive Icon := Camera | Download | Trashcan.

(** What [object[key]] gives on a plain object: its own property, else the
    member that [Object.prototype] has under the key, else [undefined]. *)
Inductive Property (A : Type) :=
| Own (a : A)
| Inherited (key : string)
| Undefined.
Arguments Own {A} a.
Arguments Inherited {A} key.
Arguments Undefined {A}.

(** The property names of [Object.prototype]. *)
Definition objectPrototypeKeys : list string :=
  [ "constructor"; "__defineGetter__"; "__defineSetter__"; "hasOwnProperty";
    "__lookupGetter__"; "__lookupSetter__"; "isPrototypeOf"; "propertyIsEnumerable";
    "toString"; "valueOf"; "__proto__"; "toLocaleString" ].

Definition readProperty {A : Type} (object : gmap string A) (key : string) : Property A :=
  match object !! key with
  | Some a => Own a
  | None => if decide (key ∈ objectPrototypeKeys) then Inherited key else Undefined
  end.

#[global] Instance PartialFile_eq_dec : EqDecision PartialFile.t.
Proof. solve_decision. Defined.

#[global] Instance Report_eq_dec : EqDecision Report.
Proof. solve_decision. Defined.

Section Component.
(** Onyx types the component only hands on, and the functions passed as
    [onConfirm].  [useMemo] compares values of the Onyx types. *)
Context {Transaction ReportAction OnConfirm Policy : Type}.
Context `{!EqDecision Transaction, !EqDecision ReportAction, !EqDecision Policy}.

(** [transaction.transactionID] *)
Variable transactionID : Transaction → string.

(** Imported functions and constants: [translate] of [useLocalize],
    [Str.isPDF], [FileUtils.cleanFileName], [URL.createObjectURL],
    [addEncryptedAuthTokenToURL], [CONST.API_ATTACHMENT_VALIDATIONS],
    [ReportUtils], [TransactionUtils] and [isNotEmptyObject].
    [createObjectURL f] is the URL that the browser hands out for [f]; the
    call that makes it is logged as [urlCreateObjectURL f]. *)
Variable translate : string → string.
Variable isPDF : string → bool.
Variable cleanFileName : string → string.
Variable createObjectURL : File.t → string.
Variable addEncryptedAuthTokenToURL : string → string.
Variables MAX_SIZE MIN_SIZE : Z.
Variable canEditFieldOfMoneyRequest :
  Property ReportAction → string → EDIT_REQUEST_FIELD → option Transaction → bool.
Variable isDistanceRequest : option Transaction → bool.
Variable hasReceipt : option Transaction → bool.
Variable isReceiptBeingScanned : option Transaction → bool.
Variable isNotEmptyObject : option Report → bool.

(** The props of a render, with the values the render reads from
    [useNetwork] and [useWindowDimensions].  The callback props
    [onModalShow], [onModalHide] and [onCarouselAttachmentChange] appear as
    the calls made to them; [policy] is read only as a dependency of
    [useMemo]; [fallbackSource] and [children] flow through unread. *)
Record Props := {
  source : string;
  onConfirm : option OnConfirm;
  defaultOpen : bool;
  originalFileName : string;
  isAuthTokenRequired : bool;
  allowDownload : bool;
  headerTitle : option string;
  report : option Report;
  isWorkspaceAvatar : bool;
  isReceiptAttachment : bool;
  transaction : option Transaction;
  parentReport : option Report;
  parentReportActions : option (gmap string ReportAction);
  policy : option Policy;
  isOffline : bool;
  isSmallScreenWidth : bool
}.

(** Calls that leave the component. *)
Inductive Call :=
| callOnConfirm (f : OnConfirm) (arg : PartialFile.t)
| fileDownload (url : string) (fileName : string)
| keyboardDismiss
| detachReceipt (id : option string)
| dismissModal (id : option string)
| navigateToEditRequest (id : string) (field : EDIT_REQUEST_FIELD)
| onCarouselAttachmentChange (attachment : Attachment)
| onModalShow
| onModalHide
| animateConfirmButton (toValue : Z)
| newFile (part : File.t) (fileName : string) (fileType : string)
| urlCreateObjectURL (object : File.t).

(** Handlers run over the hook state and the log of calls made. *)
Record Run := { state : State; calls : list Call }.

Definition M (A : Type) : Type := Run → A * Run.

#[local] Instance M_ret : MRet M := λ A a r, (a, r).
#[local] Instance M_bind : MBind M := λ A B f m r, let '(a, r') := m r in f a r'.

Definition modify (f : State → State) : M unit :=
  λ r, (tt, {| state := f (state r); calls := calls r |}).

Definition call (c : Call) : M unit :=
  λ r, (tt, {| state := state r; calls := (calls r ++ [c])%list |}).

(** Running a handler from the state [s] of the render that created it. *)
Definition fire (h : M unit) (s : State) : Run :=
  (h {| state := s; calls := [] |}).2.

Definition setIsModalOpen v := modify (withIsModalOpen v).
Definition setShouldLoadAttachment v := modify (withShouldLoadAttachment v).
Definition setIsAttachmentInvalid v := modify (withIsAttachmentInvalid v).
Definition setIsDeleteReceiptConfirmModalVisible v :=
  modify (withIsDeleteReceiptConfirmModalVisible v).
Definition setIsAuthTokenRequiredState v := modify (withIsAuthTokenRequiredState v).
Definition setAttachmentInvalidReasonTitle v := modify (withAttachmentInvalidReasonTitle v).
Definition setAttachmentInvalidReason v := modify (withAttachmentInvalidReason v).
Definition setSourceState v := modify (withSourceState v).
Definition setModalType v := modify (withModalType v).
Definition setIsConfirmButtonDisabled v := modify (withIsConfirmButtonDisabled v).
Definition setIsDownloadButtonReadyToBeShown v :=
  modify (withIsDownloadButtonReadyToBeShown v).
Definition setFile v := modify (withFile v).

(** The initial values given to [useState]. *)
Definition initialState (p : Props) : State :=
  {| isModalOpen := defaultOpen p;
     shouldLoadAttachment := false;
     isAttachmentInvalid := false;
     isDeleteReceiptConfirmModalVisible := false;
     isAuthTokenRequiredState := isAuthTokenRequired p;
     attachmentInvalidReasonTitle := "";
     attachmentInvalidReason := None;
     sourceState := source p;
     modalType := CENTERED_UNSWIPEABLE;
     isConfirmButtonDisabled := false;
     isDownloadButtonReadyToBeShown := true;
     file := if truthy (originalFileName p)
             then Some (PartialFile.ofName (originalFileName p)) else None |}.

Definition onNavigate (attachment : Attachment) : M unit :=
  setSourceState (attachment_source attachment);;
  setFile (Some (attachment_file attachment));;
  setIsAuthTokenRequiredState (attachment_isAuthTokenRequired attachment);;
  call (onCarouselAttachmentChange attachment).

Definition getModalType (sourceURL : string) (_file : option PartialFile.t) : MODAL_TYPE :=
  if truthy sourceURL &&
     (isPDF sourceURL ||
      match _file with
      | Some f => isPDF (or_else (PartialFile.name f) (translate "attachmentView.unknownFilename"))
      | None => false
      end)
  then CENTERED_UNSWIPEABLE
  else CENTERED.

Definition setDownloadButtonVisibility (s : State) (isButtonVisible : bool) : M unit :=
  if Bool.eqb (isDownloadButtonReadyToBeShown s) isButtonVisible then mret tt
  else setIsDownloadButtonReadyToBeShown isButtonVisible.

Definition downloadAttachment (s : State) : M unit :=
  let sourceURL :=
    if isAuthTokenRequiredState s then addEncryptedAuthTokenToURL (sourceState s)
    else sourceState s in
  call (fileDownload sourceURL (nullish (file s ?> PartialFile.name) ""));;
  call keyboardDismiss.

(** [lodashExtend] assigns on the object held by the [file] state itself
    (when there is one), without a state setter. *)
Definition assignSource (s : State) : M unit :=
  match file s with
  | Some _ => modify (withFile (Some (lodashExtend (file s) (sourceState s))))
  | None => mret tt
  end.

Definition submitAndClose (p : Props) (s : State) : M unit :=
  if negb (isModalOpen s) || isConfirmButtonDisabled s then mret tt
  else
    match onConfirm p with
    | Some f =>
        assignSource s;;
        call (callOnConfirm f (lodashExtend (file s) (sourceState s)))
    | None => mret tt
    end;;
    setIsModalOpen false.

Definition closeConfirmModal : M unit :=
  setIsAttachmentInvalid false;;
  setIsDeleteReceiptConfirmModalVisible false.

Definition deleteAndCloseModal (p : Props) : M unit :=
  call (detachReceipt (transactionID <$> transaction p));;
  setIsDeleteReceiptConfirmModalVisible false;;
  call (dismissModal (reportID <$> report p)).

(** [_file.size ?? 0] is [_file.size]: the size of a [File] is a number. *)
Definition isValidFile (_file : File.t) : M bool :=
  if File.size _file >? MAX_SIZE then
    setIsAttachmentInvalid true;;
    setAttachmentInvalidReasonTitle "attachmentPicker.attachmentTooLarge";;
    setAttachmentInvalidReason (Some "attachmentPicker.sizeExceeded");;
    mret false
  else if File.size _file <? MIN_SIZE then
    setIsAttachmentInvalid true;;
    setAttachmentInvalidReasonTitle "attachmentPicker.attachmentTooSmall";;
    setAttachmentInvalidReason (Some "attachmentPicker.sizeNotMet");;
    mret false
  else mret true.

(** ['webkitGetAsEntry' in _data && ... && _data.webkitGetAsEntry()?.isDirectory] *)
Definition entryIsDirectory (_data : Data) : bool :=
  match _data with
  | DataTransferItem entry _ => nullish (isDirectory <$> entry) false
  | _ => false
  end.

Definition isDirectoryCheck (_data : Data) : M bool :=
  if entryIsDirectory _data then
    setIsAttachmentInvalid true;;
    setAttachmentInvalidReasonTitle "attachmentPicker.attachmentError";;
    setAttachmentInvalidReason (Some "attachmentPicker.folderNotAllowedMessage");;
    mret false
  else mret true.

(** The object that [new File([file], cleanName, {type: file.type})]
    makes. *)
Definition renamed (f : File.t) (cleanName : string) : File.t :=
  File.mk cleanName (File.size f) (File.type f).

(** The [fileObject] of [validateAndDisplayFileToUpload]: the data
    itself, or what [getAsFile()] returns where the data has that
    method; [None] is [null]. *)
Definition fileObjectOf (_data : Data) : option (File.t + ImagePickerResponse.t) :=
  match _data with
  | DataFile f => Some (inl f)
  | DataImagePickerResponse r => Some (inr r)
  | DataTransferItem _ getAsFile => inl <$> getAsFile
  end.

Definition validateAndDisplayFileToUpload (_data : Data) : M unit :=
  notDirectory ← isDirectoryCheck _data;
  if negb notDirectory then mret tt
  else
    match fileObjectOf _data with
    | None => mret tt
    | Some (inl fileObject) =>
        valid ← isValidFile fileObject;
        if negb valid then mret tt
        else
          let cleanName := cleanFileName (File.name fileObject) in
          let updatedFile :=
            if decide (File.name fileObject = cleanName) then fileObject
            else renamed fileObject cleanName in
          (if decide (File.name fileObject = cleanName) then mret tt
           else call (newFile fileObject cleanName (File.type fileObject)));;
          call (urlCreateObjectURL updatedFile);;
          let inputSource := createObjectURL updatedFile in
          let inputModalType :=
            getModalType inputSource (Some (PartialFile.ofFile updatedFile)) in
          setIsModalOpen true;;
          setSourceState inputSource;;
          setFile (Some (PartialFile.ofFile updatedFile));;
          setModalType inputModalType
    | Some (inr fileObject) =>
        let inputModalType :=
          getModalType (ImagePickerResponse.uri fileObject)
            (Some (PartialFile.ofImagePickerResponse fileObject)) in
        setIsModalOpen true;;
        setSourceState (ImagePickerResponse.uri fileObject);;
        setFile (Some (PartialFile.ofImagePickerResponse fileObject));;
        setModalType inputModalType
    end.

Definition updateConfirmButtonVisibility (shouldFadeOut : bool) : M unit :=
  setIsConfirmButtonDisabled shouldFadeOut;;
  call (animateConfirmButton (if shouldFadeOut then 0 else 1)).

Definition closeModal : M unit := setIsModalOpen false.

Definition openModal : M unit := setIsModalOpen true.

(** The effects that keep the state in step with the props: each runs after
    the first render and after every render that changed its dependency
    ([originalFileName], [source], [isAuthTokenRequired]). *)
Definition syncOriginalFileName (p : Props) : M unit :=
  setFile (if truthy (originalFileName p)
           then Some (PartialFile.ofName (originalFileName p)) else None).

Definition syncSource (p : Props) : M unit := setSourceState (source p).

Definition syncIsAuthTokenRequired (p : Props) : M unit :=
  setIsAuthTokenRequiredState (isAuthTokenRequired p).

(** What the component passes to its [children] function. *)
Record ChildrenProps := {
  displayFileInModal : Data → M unit;
  show : M unit
}.

Definition childrenProps : ChildrenProps :=
  {| displayFileInModal := validateAndDisplayFileToUpload;
     show := openModal |}.

Record MenuItem := {
  icon : Icon;
  text : string;
  onSelected : M unit
}.

Definition replaceItem (p : Props) : MenuItem :=
  {| icon := Camera;
     text := translate "common.replace";
     onSelected :=
       closeModal;;
       call (navigateToEditRequest (nullish (reportID <$> report p) "") RECEIPT) |}.

Definition downloadItem (s : State) : MenuItem :=
  {| icon := Download;
     text := translate "common.download";
     onSelected := downloadAttachment s |}.

Definition deleteReceiptItem : MenuItem :=
  {| icon := Trashcan;
     text := translate "receipt.deleteReceipt";
     onSelected := setIsDeleteReceiptConfirmModalVisible true |}.

(** [canEdit] of [threeDotsMenuItems], for a present parent report and
    present parent report actions. *)
Definition canEdit (p : Props) (parentReport : Report)
    (parentReportActions : gmap string ReportAction) : bool :=
  let parentReportAction :=
    readProperty parentReportActions (nullish (report p ?> parentReportActionID) "") in
  canEditFieldOfMoneyRequest parentReportAction (reportID parentReport) RECEIPT (transaction p)
  && negb (isDistanceRequest (transaction p)).

(** The function given to [useMemo], run with the props and the state of
    the render it is evaluated in.  The value the component uses is
    [memoisedThreeDotsMenuItems] below. *)
Definition threeDotsMenuItems (p : Props) (s : State) : list MenuItem :=
  match isReceiptAttachment p, parentReport p, parentReportActions p with
  | true, Some parentReport, Some parentReportActions =>
      let canEdit := canEdit p parentReport parentReportActions in
      ((if canEdit then [replaceItem p] else [])
       ++ [downloadItem s]
       ++ (if hasReceipt (transaction p) && negb (isReceiptBeingScanned (transaction p)) && canEdit
           then [deleteReceiptItem] else []))%list
  | _, _, _ => []
  end.

(** The cell of [useMemo]: the render at which the function was last run.
    Its value, and the closures in it, are those of that render. *)
Record MenuMemo := {
  memoProps : Props;
  memoState : State
}.

(** The dependency array: [[isReceiptAttachment, parentReport,
    parentReportActions, policy, transaction, file, sourceState]].  [report],
    which the function reads, is not in it. *)
Definition menuDeps (p : Props) (s : State) :
    bool * option Report * option (gmap string ReportAction) * option Policy
    * option Transaction * option PartialFile.t * string :=
  (isReceiptAttachment p, parentReport p, parentReportActions p, policy p,
   transaction p, file s, sourceState s).

(** [useMemo] at a render with props [p] and state [s], [previous] being the
    cell the render before left ([None] at the first render): the function
    is run again only when a dependency has changed.  React compares with
    [Object.is]; Onyx and [useState] hand on the same object until the value
    changes, so a dependency is the same object exactly when it is the same
    value. *)
Definition useMemoMenu (previous : option MenuMemo) (p : Props) (s : State) : MenuMemo :=
  match previous with
  | Some memo =>
      if decide (menuDeps (memoProps memo) (memoState memo) = menuDeps p s) then memo
      else {| memoProps := p; memoState := s |}
  | None => {| memoProps := p; memoState := s |}
  end.

(** [threeDotsMenuItems] as the component holds it. *)
Definition memoisedThreeDotsMenuItems (memo : MenuMemo) : list MenuItem :=
  threeDotsMenuItems (memoProps memo) (memoState memo).

Definition isOverlayModalVisible (p : Props) (s : State) : bool :=
  (isReceiptAttachment p && isDeleteReceiptConfirmModalVisible s)
  || (negb (isReceiptAttachment p) && isAttachmentInvalid s).

(** What a render returns: the props given to [Modal], to
    [HeaderWithBackButton], the content of the modal, and the elements
    that are rendered conditionally ([None] when they are not).  [previous]
    is the [useMemo] cell left by the render before. *)
Record ModalProps := {
  modal_type : MODAL_TYPE;
  modal_onSubmit : M unit;
  modal_onClose : M unit;
  modal_isVisible : bool;
  modal_onModalShow : M unit;
  modal_onModalHide : M unit
}.

Record HeaderProps := {
  header_title : option string;
  header_shouldShowDownloadButton : bool;
  header_onDownloadButtonPress : M unit;
  header_shouldShowCloseButton : bool;
  header_shouldShowBackButton : bool;
  header_onBackButtonPress : M unit;
  header_onCloseButtonPress : M unit;
  header_shouldShowThreeDotsButton : bool;
  header_threeDotsMenuItems : list MenuItem
}.

Inductive Content :=
| AttachmentCarousel (r : Report) (src : string)
| AttachmentView (src : string) (authTokenRequired : bool)
    (f : option PartialFile.t) (workspaceAvatar : bool) (id : option string)
| NoContent.

Record ButtonProps := {
  button_text : string;
  button_onPress : M unit;
  button_isDisabled : bool
}.

Record ConfirmModalProps := {
  confirm_title : string;
  confirm_isVisible : bool;
  confirm_onConfirm : M unit;
  confirm_onCancel : M unit;
  confirm_prompt : string;
  confirm_confirmText : string;
  confirm_cancelText : option string;
  confirm_danger : bool;
  confirm_shouldShowCancelButton : bool
}.

Record Rendered := {
  modal : ModalProps;
  header : HeaderProps;
  content : Content;
  confirmButton : option ButtonProps;
  deleteReceiptConfirmModal : option ConfirmModalProps;
  invalidAttachmentConfirmModal : option ConfirmModalProps
}.

Definition render (previous : option MenuMemo) (p : Props) (s : State) : Rendered :=
  let shouldShowDownloadButton :=
    if isNotEmptyObject (report p)
    then allowDownload p && isDownloadButtonReadyToBeShown s
         && negb (isReceiptAttachment p) && negb (isOffline p)
    else false in
  let shouldShowThreeDotsButton :=
    if isNotEmptyObject (report p) then isReceiptAttachment p && isModalOpen s else false in
  {| modal :=
       {| modal_type := modalType s;
          modal_onSubmit := submitAndClose p s;
          modal_onClose := if isOverlayModalVisible p s then closeConfirmModal else closeModal;
          modal_isVisible := isModalOpen s;
          modal_onModalShow := call onModalShow;; setShouldLoadAttachment true;
          modal_onModalHide := call onModalHide;; setShouldLoadAttachment false |};
     header :=
       {| header_title := headerTitle p;
          header_shouldShowDownloadButton := shouldShowDownloadButton;
          header_onDownloadButtonPress := downloadAttachment s;
          header_shouldShowCloseButton := negb (isSmallScreenWidth p);
          header_shouldShowBackButton := isSmallScreenWidth p;
          header_onBackButtonPress := closeModal;
          header_onCloseButtonPress := closeModal;
          header_shouldShowThreeDotsButton := shouldShowThreeDotsButton;
          header_threeDotsMenuItems :=
            memoisedThreeDotsMenuItems (useMemoMenu previous p s) |};
     content :=
       match report p, isReceiptAttachment p with
       | Some r, false => AttachmentCarousel r (source p)
       | _, _ =>
           if truthy (sourceState s) && shouldLoadAttachment s
           then AttachmentView (sourceState s) (isAuthTokenRequired p) (file s)
                  (isWorkspaceAvatar p) (transactionID <$> transaction p)
           else NoContent
       end;
     confirmButton :=
       match onConfirm p with
       | Some _ =>
           Some {| button_text := translate "common.send";
                   button_onPress := submitAndClose p s;
                   button_isDisabled := isConfirmButtonDisabled s |}
       | None => None
       end;
     deleteReceiptConfirmModal :=
       if isReceiptAttachment p then
         Some {| confirm_title := translate "receipt.deleteReceipt";
                 confirm_isVisible := isDeleteReceiptConfirmModalVisible s;
                 confirm_onConfirm := deleteAndCloseModal p;
                 confirm_onCancel := closeConfirmModal;
                 confirm_prompt := translate "receipt.deleteConfirmation";
                 confirm_confirmText := translate "common.delete";
                 confirm_cancelText := Some (translate "common.cancel");
                 confirm_danger := true;
                 confirm_shouldShowCancelButton := true |}
       else None;
     invalidAttachmentConfirmModal :=
       if negb (isReceiptAttachment p) then
         Some {| confirm_title :=
                   if truthy (attachmentInvalidReasonTitle s)
                   then translate (attachmentInvalidReasonTitle s) else "";
                 confirm_isVisible := isAttachmentInvalid s;
                 confirm_onConfirm := closeConfirmModal;
                 confirm_onCancel := closeConfirmModal;
                 confirm_prompt :=
                   nullish (whenTruthy (attachmentInvalidReason s) translate) "";
                 confirm_confirmText := translate "common.close";
                 confirm_cancelText := None;
                 confirm_danger := false;
                 confirm_shouldShowCancelButton := false |}
       else None |}.

(** A confirm modal that is rendered and whose [isVisible] is true. *)
Definition visible (c : option ConfirmModalProps) : Prop :=
  ∃ props, c = Some props ∧ confirm_isVisible props = true.

(** [displayFileInModal] turned the data down: the modal was not opened,
    the shown file and source are as before, and the invalid-attachment
    state is set with the given title and reason. *)
Definition rejected (s : State) (out : Run) (title reason : string) : Prop :=
  isModalOpen (state out) = isModalOpen s
  ∧ file (state out) = file s
  ∧ sourceState (state out) = sourceState s
  ∧ isAttachmentInvalid (state out) = true
  ∧ attachmentInvalidReasonTitle (state out) = title
  ∧ attachmentInvalidReason (state out) = Some reason.

(** [displayFileInModal] accepted the [File] [f]: the modal is open and
    shows a file with the cleaned name of [f] and its size and type,
    which is [f] itself when its name is already clean. *)
Definition accepted (f : File.t) (out : Run) : Prop :=
  isModalOpen (state out) = true
  ∧ ∃ shown,
      file (state out) = Some (PartialFile.ofFile shown)
      ∧ File.name shown = cleanFileName (File.name f)
      ∧ File.size shown = File.size f
      ∧ File.type shown = File.type f
      ∧ (File.name f = cleanFileName (File.name f) → shown = f)
      ∧ sourceState (state out) = createObjectURL shown
      ∧ modalType (state out)
        = getModalType (createObjectURL shown) (Some (PartialFile.ofFile shown)).

(** C6.  For a source URL and a file: [getModalType] returns the
    unswipeable centered type exactly when the URL is non-empty and the
    URL is a PDF or the file's name is a PDF, where the translated
    unknown-filename placeholder stands for a name that is missing
    (undefined or empty); in every other case it returns the centered
    type. *)
Theorem getModalType_spec (sourceURL : string) (f : PartialFile.t) :
  (∀ n, PartialFile.name f = Some n → n ≠ "" →
     (getModalType sourceURL (Some f) = CENTERED_UNSWIPEABLE ↔
        sourceURL ≠ "" ∧ (isPDF sourceURL = true ∨ isPDF n = true)))
  ∧ (PartialFile.name f = None ∨ PartialFile.name f = Some "" →
     (getModalType sourceURL (Some f) = CENTERED_UNSWIPEABLE ↔
        sourceURL ≠ "" ∧
        (isPDF sourceURL = true ∨ isPDF (translate "attachmentView.unknownFilename") = true)))
  ∧ (getModalType sourceURL (Some f) ≠ CENTERED_UNSWIPEABLE →
     getModalType sourceURL (Some f) = CENTERED).
Proof.
  assert (Hgen : ∀ shown,
            or_else (PartialFile.name f) (translate "attachmentView.unknownFilename") = shown →
            (getModalType sourceURL (Some f) = CENTERED_UNSWIPEABLE ↔
               sourceURL ≠ "" ∧ (isPDF sourceURL = true ∨ isPDF shown = true))).
  { intros shown <-. unfold getModalType, truthy.
    case_decide as Hurl; cbn.
    - split; [done|]. by intros [? _].
    - destruct (isPDF sourceURL); cbn; [by split; [split; [|left]|]|].
      destruct (isPDF _); cbn; [by split; [split; [|right]|]|].
      split; [done|]. by intros [_ [?|?]]. }
  split; [|split].
  - intros n Hn Hne. apply Hgen. unfold or_else, truthy. rewrite Hn.
    by rewrite decide_False.
  - intros Hmissing. apply Hgen. unfold or_else, truthy.
    by destruct Hmissing as [-> | ->].
  - unfold getModalType. by destruct (_ && _).
Qed.

(** C9.  When the modal is not open or the confirm button is disabled,
    [submitAndClose] makes no call, [onConfirm] included, and leaves the
    whole state as it is. *)
Theorem submitAndClose_noop (p : Props) (s : State) :
  isModalOpen s = false ∨ isConfirmButtonDisabled s = true →
  fire (submitAndClose p s) s = {| state := s; calls := [] |}.
Proof.
  intros Hguard. unfold fire, submitAndClose.
  by destruct Hguard as [-> | ->]; [|rewrite orb_true_r].
Qed.

(** C3.  The Send button is rendered exactly when [onConfirm] is given,
    and pressing it runs [submitAndClose]; with the modal open and the
    confirm button enabled, [submitAndClose] calls [onConfirm] once, with
    the current file extended with the current source, makes no other
    call, and leaves the modal closed.  Without an [onConfirm] there is
    nothing to call: no call is made and the modal is closed all the
    same. *)
Theorem submitAndClose_confirm (previous : option MenuMemo) (p : Props) (s : State) :
  (is_Some (confirmButton (render previous p s)) ↔ is_Some (onConfirm p))
  ∧ (∀ b, confirmButton (render previous p s) = Some b →
       button_text b = translate "common.send" ∧ button_onPress b = submitAndClose p s)
  ∧ (∀ f, onConfirm p = Some f →
       isModalOpen s = true → isConfirmButtonDisabled s = false →
       calls (fire (submitAndClose p s) s)
         = [callOnConfirm f (lodashExtend (file s) (sourceState s))]
       ∧ isModalOpen (state (fire (submitAndClose p s) s)) = false)
  ∧ (onConfirm p = None →
       isModalOpen s = true → isConfirmButtonDisabled s = false →
       fire (submitAndClose p s) s = {| state := withIsModalOpen false s; calls := [] |}).
Proof.
  split; [|split; [|split]].
  - cbn. destruct (onConfirm p); split; intros [? ?]; by eauto.
  - intros b. cbn. destruct (onConfirm p); [|done]. by intros [= <-].
  - intros f Hf Hopen Henabled. unfold fire, submitAndClose, assignSource.
    rewrite Hf, Hopen, Henabled. cbn. by destruct (file s).
  - intros Hnone Hopen Henabled. unfold fire, submitAndClose.
    by rewrite Hnone, Hopen, Henabled.
Qed.

(** C5.  In every state: the delete-receipt confirm modal is rendered
    only for a receipt attachment and the invalid-attachment confirm
    modal only otherwise, so the two are never visible together; and
    while one of them is visible the modal's [onClose] is
    [closeConfirmModal], which resets [isAttachmentInvalid] and
    [isDeleteReceiptConfirmModalVisible] and leaves the main modal as it
    is. *)
Theorem overlay_confirm_modals (previous : option MenuMemo) (p : Props) (s : State) :
  let r := render previous p s in
  (is_Some (deleteReceiptConfirmModal r) → isReceiptAttachment p = true)
  ∧ (is_Some (invalidAttachmentConfirmModal r) → isReceiptAttachment p = false)
  ∧ ¬ (visible (deleteReceiptConfirmModal r) ∧ visible (invalidAttachmentConfirmModal r))
  ∧ (visible (deleteReceiptConfirmModal r) ∨ visible (invalidAttachmentConfirmModal r) →
       modal_onClose (modal r) = closeConfirmModal
       ∧ isAttachmentInvalid (state (fire (modal_onClose (modal r)) s)) = false
       ∧ isDeleteReceiptConfirmModalVisible (state (fire (modal_onClose (modal r)) s)) = false
       ∧ isModalOpen (state (fire (modal_onClose (modal r)) s)) = isModalOpen s
       ∧ calls (fire (modal_onClose (modal r)) s) = []).
Proof.
  cbn. unfold visible, isOverlayModalVisible.
  destruct (isReceiptAttachment p); cbn.
  - split; [done|]. split; [by intros [? ?]|]. split; [by intros [_ (? & ? & _)]|].
    intros [(c & [= <-] & Hvis)|(? & ? & _)]; [|done]. cbn in Hvis. by rewrite Hvis.
  - split; [by intros [? ?]|]. split; [done|]. split; [by intros [(? & ? & _) _]|].
    intros [(? & ? & _)|(c & [= <-] & Hvis)]; [done|]. cbn in Hvis. by rewrite Hvis.
Qed.

(** Two menu items with different icons are different. *)
Lemma icon_neq (a b : MenuItem) : icon a ≠ icon b → a ≠ b.
Proof. by intros Hne ->. Qed.

Ltac menu_membership :=
  repeat match goal with
    | H : _ ∈ _ :: _ |- _ => apply elem_of_cons in H as [H|H]
    | H : _ ∈ [] |- _ => by apply elem_of_nil in H
    | H : ?a = ?b :> MenuItem |- _ => exfalso; by apply (icon_neq a b)
    | H : _ ∧ _ |- _ => destruct H
    | H : true = false |- _ => discriminate H
    | H : false = true |- _ => discriminate H
    end;
  rewrite ?elem_of_cons, ?elem_of_nil; eauto 7.

(** The function given to [useMemo], for the props and state it is run
    with: its result is empty unless [isReceiptAttachment] is true and
    [parentReport] and [parentReportActions] are both present.  Otherwise it
    contains the Download item; it contains the Replace item exactly when
    [canEditFieldOfMoneyRequest] holds for the receipt field and the
    transaction is not a distance request; and it contains the Delete
    receipt item exactly when, besides, the transaction has a receipt that
    is not being scanned. *)
Theorem threeDotsMenuItems_spec (p : Props) (s : State) :
  let items := threeDotsMenuItems p s in
  (¬ (isReceiptAttachment p = true
      ∧ is_Some (parentReport p) ∧ is_Some (parentReportActions p)) → items = [])
  ∧ (items ≠ [] →
       isReceiptAttachment p = true
       ∧ is_Some (parentReport p) ∧ is_Some (parentReportActions p))
  ∧ (∀ parent actions,
       isReceiptAttachment p = true →
       parentReport p = Some parent → parentReportActions p = Some actions →
       let editable :=
         canEditFieldOfMoneyRequest
           (readProperty actions (nullish (report p ?> parentReportActionID) ""))
           (reportID parent) RECEIPT (transaction p) = true
         ∧ isDistanceRequest (transaction p) = false in
       downloadItem s ∈ items
       ∧ (replaceItem p ∈ items ↔ editable)
       ∧ (deleteReceiptItem ∈ items ↔
            editable ∧ hasReceipt (transaction p) = true
            ∧ isReceiptBeingScanned (transaction p) = false)).
Proof.
  cbn zeta. unfold threeDotsMenuItems. split; [|split].
  - intros Hguard.
    destruct (isReceiptAttachment p), (parentReport p), (parentReportActions p);
      try done.
    exfalso. apply Hguard. by eauto.
  - destruct (isReceiptAttachment p), (parentReport p), (parentReportActions p);
      try done; by eauto.
  - intros parent actions -> -> ->. unfold canEdit.
    destruct (canEditFieldOfMoneyRequest _ _ _ _), (isDistanceRequest _),
      (hasReceipt _), (isReceiptBeingScanned _); cbn;
      (split; [menu_membership|]);
      split; split; intros H; menu_membership.
Qed.




(** C10.  [displayFileInModal] turns down a directory, a [File] larger
    than [MAX_SIZE] and a [File] smaller than [MIN_SIZE]: the modal is
    not opened and the invalid-attachment state is set with the title and
    reason of that case.  It accepts every other [File], those of size
    [MIN_SIZE] or [MAX_SIZE] among them, and shows it under its cleaned
    name. *)
Theorem displayFileInModal_spec (_data : Data) (s : State) :
  MIN_SIZE ≤ MAX_SIZE →
  let out := fire (displayFileInModal childrenProps _data) s in
  (entryIsDirectory _data = true →
     rejected s out "attachmentPicker.attachmentError"
       "attachmentPicker.folderNotAllowedMessage")
  ∧ (∀ f, entryIsDirectory _data = false → fileObjectOf _data = Some (inl f) →
       (File.size f > MAX_SIZE →
          rejected s out "attachmentPicker.attachmentTooLarge" "attachmentPicker.sizeExceeded")
       ∧ (File.size f < MIN_SIZE →
            rejected s out "attachmentPicker.attachmentTooSmall" "attachmentPicker.sizeNotMet")
       ∧ (MIN_SIZE ≤ File.size f ≤ MAX_SIZE → accepted f out)
       ∧ (File.size f = MIN_SIZE ∨ File.size f = MAX_SIZE → accepted f out)).
Proof.
  intros Hbounds out. subst out.
  unfold fire, childrenProps, displayFileInModal,
    validateAndDisplayFileToUpload, isDirectoryCheck. split.
  - intros ->. by repeat split.
  - intros f -> ->. cbn. unfold isValidFile.
    destruct (Z.gtb_spec (File.size f) MAX_SIZE) as [Hlarge|Hmax]; cbn.
    { split; [by repeat split|]. split; [lia|]. split; lia. }
    destruct (Z.ltb_spec (File.size f) MIN_SIZE) as [Hsmall|Hmin]; cbn.
    { split; [lia|]. split; [by repeat split|]. split; lia. }
    split; [lia|]. split; [lia|].
    match goal with
    | |- (_ → accepted f ?out) ∧ _ => enough (accepted f out) by done
    end.
    case_decide as Hname; cbn; (split; [done|]).
    + exists f. by repeat split.
    + exists (renamed f (cleanFileName (File.name f))). by repeat split.
Qed.

(** *** The header, the menu and the close button *)

(** X12.  The header never shows the download button and the three-dots
    button together, and shows neither when [report] is an empty object;
    the three-dots button needs an open modal on a receipt, the download
    button needs [allowDownload] and a network connection; and exactly one
    of the close and back buttons is shown. *)
Theorem header_buttons (previous : option MenuMemo) (p : Props) (s : State) :
  let h := header (render previous p s) in
  ¬ (header_shouldShowDownloadButton h = true ∧ header_shouldShowThreeDotsButton h = true)
  ∧ (isNotEmptyObject (report p) = false →
       header_shouldShowDownloadButton h = false
       ∧ header_shouldShowThreeDotsButton h = false)
  ∧ (header_shouldShowThreeDotsButton h = true →
       isReceiptAttachment p = true ∧ isModalOpen s = true)
  ∧ (header_shouldShowDownloadButton h = true →
       allowDownload p = true ∧ isOffline p = false ∧ isReceiptAttachment p = false)
  ∧ header_shouldShowCloseButton h = negb (header_shouldShowBackButton h).
Proof.
  cbn. destruct (isNotEmptyObject (report p)), (allowDownload p),
    (isDownloadButtonReadyToBeShown s), (isReceiptAttachment p), (isOffline p),
    (isModalOpen s); cbn; repeat split; try done; by intros [? ?].
Qed.

(** X13.  The three-dots menu is one of four lists: empty, Download alone,
    Replace then Download, or Replace, Download and Delete receipt in this
    order.  So Delete receipt is never offered without Replace, and no item
    is offered twice. *)
Theorem threeDotsMenuItems_shape (p : Props) (s : State) :
  let icons := icon <$> threeDotsMenuItems p s in
  icons = [] ∨ icons = [Download] ∨ icons = [Camera; Download]
  ∨ icons = [Camera; Download; Trashcan].
Proof.
  cbn zeta. unfold threeDotsMenuItems.
  destruct (isReceiptAttachment p), (parentReport p), (parentReportActions p); auto.
  destruct (canEdit _ _ _), (hasReceipt _), (isReceiptBeingScanned _); cbn; auto.
Qed.

(** X14.  Whatever the state, one [onClose] leaves no confirm modal
    pending: it closes the main modal when no confirm modal was in the way,
    and leaves the main modal as it is otherwise.  A second [onClose]
    always leaves the main modal closed.  Neither makes a call. *)
Theorem close_twice (previous previous' : option MenuMemo) (p : Props) (s : State) :
  let r1 := fire (modal_onClose (modal (render previous p s))) s in
  let r2 := fire (modal_onClose (modal (render previous' p (state r1)))) (state r1) in
  isOverlayModalVisible p (state r1) = false
  ∧ (isOverlayModalVisible p s = false → isModalOpen (state r1) = false)
  ∧ (isOverlayModalVisible p s = true → isModalOpen (state r1) = isModalOpen s)
  ∧ isModalOpen (state r2) = false
  ∧ calls r1 = [] ∧ calls r2 = [].
Proof.
  cbn. unfold isOverlayModalVisible.
  destruct (isReceiptAttachment p), (isDeleteReceiptConfirmModalVisible s) eqn:Hdelete,
    (isAttachmentInvalid s) eqn:Hinvalid; cbn; rewrite ?Hdelete, ?Hinvalid; cbn;
    by repeat split.
Qed.

(** X15.  On a receipt, selecting Delete receipt shows the confirm modal
    over the modal, which stays as it was, and turns [onClose] into
    [closeConfirmModal].  Confirming then detaches the receipt of the
    transaction and dismisses the modal of the report, in this order, and
    hides the confirm modal; the component itself does not change
    [isModalOpen]. *)
Theorem delete_receipt_flow (previous : option MenuMemo) (p : Props) (s : State) :
  isReceiptAttachment p = true →
  let asked := fire (onSelected deleteReceiptItem) s in
  visible (deleteReceiptConfirmModal (render previous p (state asked)))
  ∧ isModalOpen (state asked) = isModalOpen s
  ∧ calls asked = []
  ∧ modal_onClose (modal (render previous p (state asked))) = closeConfirmModal
  ∧ ∀ c, deleteReceiptConfirmModal (render previous p (state asked)) = Some c →
      let confirmed := fire (confirm_onConfirm c) (state asked) in
      calls confirmed
        = [ detachReceipt (transactionID <$> transaction p);
            dismissModal (reportID <$> report p) ]
      ∧ isDeleteReceiptConfirmModalVisible (state confirmed) = false
      ∧ isModalOpen (state confirmed) = isModalOpen s.
Proof.
  intros Hreceipt. cbn. unfold visible, isOverlayModalVisible. rewrite Hreceipt. cbn.
  split; [by eexists|]. do 3 (split; [done|]). by intros c [= <-].
Qed.

(** X16.  A second [submitAndClose], run on the state the first one left,
    does nothing: over two submits in a row [onConfirm] is called at most
    once. *)
Theorem double_submit (p : Props) (s : State) :
  let first := fire (submitAndClose p s) s in
  fire (submitAndClose p (state first)) (state first)
  = {| state := state first; calls := [] |}.
Proof.
  cbn zeta. unfold fire, submitAndClose, assignSource.
  destruct (isModalOpen s) eqn:Hopen; cbn; [|by rewrite Hopen].
  destruct (isConfirmButtonDisabled s) eqn:Hdisabled; cbn;
    [by rewrite Hopen, Hdisabled|].
  by destruct (onConfirm p), (file s).
Qed.

(** X17.  While the confirm button is faded out (the keyboard is open) the
    Send button is rendered disabled and [submitAndClose] does nothing;
    fading it in again enables it.  Each change starts one animation, to
    opacity 0 and to opacity 1. *)
Theorem keyboard_disables_submit (previous previous' : option MenuMemo) (p : Props) (s : State) :
  let hidden := fire (updateConfirmButtonVisibility true) s in
  let shown := fire (updateConfirmButtonVisibility false) (state hidden) in
  fire (submitAndClose p (state hidden)) (state hidden)
    = {| state := state hidden; calls := [] |}
  ∧ (∀ b, confirmButton (render previous p (state hidden)) = Some b → button_isDisabled b = true)
  ∧ (∀ b, confirmButton (render previous' p (state shown)) = Some b → button_isDisabled b = false)
  ∧ calls hidden = [animateConfirmButton 0]
  ∧ calls shown = [animateConfirmButton 1]
  ∧ isModalOpen (state shown) = isModalOpen s.
Proof.
  cbn zeta. split; [|split; [|split]].
  - unfold fire, submitAndClose. cbn. by rewrite orb_true_r.
  - cbn. destruct (onConfirm p); [|done]. by intros b [= <-].
  - cbn. destruct (onConfirm p); [|done]. by intros b [= <-].
  - done.
Qed.

(** *** Effects, content and the file shown *)

(** X18.  The three effects that follow the props leave the initial state
    as [useState] made it, and make no call.  Run after a change of props,
    from any state, they bring the source, the auth-token flag and the file
    to what the new props give, and leave the rest, [isModalOpen] included,
    alone. *)
Theorem prop_effects (p : Props) (s : State) :
  let effects := syncOriginalFileName p;; syncSource p;; syncIsAuthTokenRequired p in
  fire effects (initialState p) = {| state := initialState p; calls := [] |}
  ∧ fire effects s
    = {| state := withIsAuthTokenRequiredState (isAuthTokenRequired p)
                    (withSourceState (source p) (withFile (file (initialState p)) s));
         calls := [] |}
  ∧ isModalOpen (state (fire effects s)) = isModalOpen s.
Proof. by repeat split. Qed.

(** X19.  An [AttachmentView] is rendered only once the modal has shown and
    until it hides: it needs [shouldLoadAttachment], which is false at
    first, is set by [onModalShow] and cleared by [onModalHide].  It shows
    the source and the file of the state, and the source is not empty.  The
    [onModalShow] and [onModalHide] props are each called once. *)
Theorem attachment_view_while_shown (previous previous' : option MenuMemo) (p : Props) (s : State) :
  (∀ src auth f avatar id,
     content (render previous p s) = AttachmentView src auth f avatar id →
     shouldLoadAttachment s = true ∧ src = sourceState s ∧ src ≠ "" ∧ f = file s)
  ∧ shouldLoadAttachment (initialState p) = false
  ∧ (let hidden := fire (modal_onModalHide (modal (render previous p s))) s in
     calls hidden = [onModalHide]
     ∧ ∀ src auth f avatar id,
         content (render previous' p (state hidden)) ≠ AttachmentView src auth f avatar id)
  ∧ (let shown := fire (modal_onModalShow (modal (render previous p s))) s in
     calls shown = [onModalShow] ∧ shouldLoadAttachment (state shown) = true).
Proof.
  split; [|split; [done|split; [|done]]].
  - intros src auth f avatar id. cbn. unfold truthy.
    destruct (report p), (isReceiptAttachment p); try done;
      case_decide as Hsrc; try done; destruct (shouldLoadAttachment s); try done;
      by intros [= <- _ <- _ _].
  - cbn. split; [done|]. intros src auth f avatar id.
    destruct (report p), (isReceiptAttachment p); try done;
      by rewrite andb_false_r.
Qed.

(** X20.  The size limits apply to [File]s only.  An
    [ImagePickerResponse] whose size is outside the limits is shown all the
    same: the modal opens on its [uri] with the response itself, name
    uncleaned, as the file, and the invalid-attachment state is not
    touched; a [File] of the same name, size and type is turned down. *)
Theorem size_limits_apply_to_files_only (r : ImagePickerResponse.t) (s : State) :
  ImagePickerResponse.size r > MAX_SIZE ∨ ImagePickerResponse.size r < MIN_SIZE →
  let picked := fire (displayFileInModal childrenProps (DataImagePickerResponse r)) s in
  let dropped :=
    fire (displayFileInModal childrenProps
            (DataFile (File.mk (ImagePickerResponse.name r) (ImagePickerResponse.size r)
                         (ImagePickerResponse.type r)))) s in
  (isModalOpen (state picked) = true
   ∧ file (state picked) = Some (PartialFile.ofImagePickerResponse r)
   ∧ sourceState (state picked) = ImagePickerResponse.uri r
   ∧ isAttachmentInvalid (state picked) = isAttachmentInvalid s)
  ∧ (isModalOpen (state dropped) = isModalOpen s
     ∧ file (state dropped) = file s
     ∧ isAttachmentInvalid (state dropped) = true).
Proof.
  intros Hsize. cbn zeta. split; [done|].
  unfold fire, childrenProps, displayFileInModal, validateAndDisplayFileToUpload,
    isDirectoryCheck, isValidFile. cbn.
  destruct (Z.gtb_spec (ImagePickerResponse.size r) MAX_SIZE) as [?|?]; [done|].
  destruct (Z.ltb_spec (ImagePickerResponse.size r) MIN_SIZE) as [?|?]; [done|]. lia.
Qed.


(** X22.  A [DataTransferItem] that is not a directory and whose
    [getAsFile()] returns [null] is ignored: nothing changes and no call is
    made. *)
Theorem item_without_file_ignored (entry : option FileSystemEntry) (s : State) :
  entryIsDirectory (DataTransferItem entry None) = false →
  fire (displayFileInModal childrenProps (DataTransferItem entry None)) s
  = {| state := s; calls := [] |}.
Proof.
  intros Hentry.
  unfold fire, childrenProps, displayFileInModal, validateAndDisplayFileToUpload,
    isDirectoryCheck.
  by rewrite Hentry.
Qed.

(** The file shown for [f]: [f] itself, or its copy under the cleaned
    name. *)
Definition shownFile (f : File.t) : File.t :=
  if decide (File.name f = cleanFileName (File.name f)) then f
  else renamed f (cleanFileName (File.name f)).

Lemma display_file_within_limits (f : File.t) (s : State) :
  MIN_SIZE ≤ File.size f ≤ MAX_SIZE →
  state (fire (displayFileInModal childrenProps (DataFile f)) s)
  = withModalType
      (getModalType (createObjectURL (shownFile f)) (Some (PartialFile.ofFile (shownFile f))))
      (withFile (Some (PartialFile.ofFile (shownFile f)))
         (withSourceState (createObjectURL (shownFile f)) (withIsModalOpen true s))).
Proof.
  intros [Hmin Hmax].
  unfold fire, childrenProps, displayFileInModal, validateAndDisplayFileToUpload,
    isDirectoryCheck, isValidFile, shownFile. cbn.
  destruct (Z.gtb_spec (File.size f) MAX_SIZE) as [?|_]; [lia|].
  destruct (Z.ltb_spec (File.size f) MIN_SIZE) as [?|_]; [lia|]. cbn.
  by case_decide.
Qed.

(** X23.  Where [cleanFileName] leaves a cleaned name as it is, the file the
    modal shows for an accepted [File] is accepted again unchanged: passing
    it to [displayFileInModal] shows that very file, under the URL made for
    it. *)
Theorem shown_file_is_stable (f shown : File.t) (s s' : State) :
  (∀ n, cleanFileName (cleanFileName n) = cleanFileName n) →
  MIN_SIZE ≤ File.size f ≤ MAX_SIZE →
  file (state (fire (displayFileInModal childrenProps (DataFile f)) s))
    = Some (PartialFile.ofFile shown) →
  let again := fire (displayFileInModal childrenProps (DataFile shown)) s' in
  file (state again) = Some (PartialFile.ofFile shown)
  ∧ sourceState (state again) = createObjectURL shown
  ∧ isModalOpen (state again) = true.
Proof.
  intros Hclean Hbounds Hshown. cbn zeta.
  rewrite (display_file_within_limits f s Hbounds) in Hshown. cbn in Hshown.
  assert (Hsize : File.size shown = File.size f
                  ∧ File.name shown = cleanFileName (File.name shown)).
  { unfold shownFile in Hshown. case_decide as Hname; injection Hshown as Hn Hs _.
    - rewrite <- Hn, <- Hs, <- Hname. done.
    - rewrite <- Hn, <- Hs. cbn. by rewrite Hclean. }
  destruct Hsize as [Hsize Hname].
  rewrite (display_file_within_limits shown s') by lia.
  unfold shownFile. by rewrite decide_True.
Qed.

(** X24.  Where object URLs are never empty, an accepted [File] whose
    cleaned name is a PDF opens in the unswipeable centered modal. *)
Theorem pdf_opens_unswipeable (f : File.t) (s : State) :
  (∀ g, createObjectURL g ≠ "") →
  MIN_SIZE ≤ File.size f ≤ MAX_SIZE →
  cleanFileName (File.name f) ≠ "" →
  isPDF (cleanFileName (File.name f)) = true →
  modalType (state (fire (displayFileInModal childrenProps (DataFile f)) s))
  = CENTERED_UNSWIPEABLE.
Proof.
  intros Hurl Hbounds Hname Hpdf. rewrite (display_file_within_limits f s Hbounds). cbn.
  unfold getModalType, or_else, truthy.
  rewrite decide_False by apply Hurl.
  unfold shownFile. case_decide as Hsame; cbn.
  - rewrite <- Hsame in Hname, Hpdf. rewrite decide_False by done.
    by rewrite Hpdf, orb_true_r.
  - rewrite decide_False by done. by rewrite Hpdf, orb_true_r.
Qed.

(** X25.  After the carousel has moved to an attachment, a download fetches
    that attachment: its source, with the auth token added exactly when the
    attachment requires it, under the name of its file, or under the empty
    name when the file has none; the keyboard is dismissed afterwards.
    Moving calls [onCarouselAttachmentChange] once and leaves the modal
    open or closed as it was. *)
Theorem navigate_then_download (attachment : Attachment) (s : State) :
  let moved := fire (onNavigate attachment) s in
  calls moved = [onCarouselAttachmentChange attachment]
  ∧ isModalOpen (state moved) = isModalOpen s
  ∧ fire (downloadAttachment (state moved)) (state moved)
    = {| state := state moved;
         calls :=
           [ fileDownload
               (if attachment_isAuthTokenRequired attachment
                then addEncryptedAuthTokenToURL (attachment_source attachment)
                else attachment_source attachment)
               (nullish (PartialFile.name (attachment_file attachment)) "");
             keyboardDismiss ] |}.
Proof. by repeat split. Qed.

(** X27.  [setDownloadButtonVisibility] leaves the flag equal to what was
    asked, touching nothing when it already is; once it was asked to hide
    the button the header does not show it, whatever the props. *)
Theorem download_button_visibility (previous : option MenuMemo) (p : Props) (s : State)
    (isButtonVisible : bool) :
  let out := fire (setDownloadButtonVisibility s isButtonVisible) s in
  isDownloadButtonReadyToBeShown (state out) = isButtonVisible
  ∧ (isDownloadButtonReadyToBeShown s = isButtonVisible → out = {| state := s; calls := [] |})
  ∧ calls out = []
  ∧ isModalOpen (state out) = isModalOpen s
  ∧ (isButtonVisible = false →
       header_shouldShowDownloadButton (header (render previous p (state out))) = false).
Proof.
  cbn zeta. unfold fire, setDownloadButtonVisibility.
  destruct (isDownloadButtonReadyToBeShown s) eqn:Hready, isButtonVisible; cbn;
    rewrite ?Hready; repeat split; try done;
    destruct (isNotEmptyObject (report p)), (allowDownload p); by cbn.
Qed.

(** X26.  A confirmed submit hands [onConfirm] the file object of the state
    itself, now carrying [source]: its other properties are unchanged, and
    the [file] state holds the same extended object afterwards.  With no
    file, [onConfirm] receives an object that has [source] alone and the
    [file] state stays undefined.  Apart from [file] and [isModalOpen] the
    submit changes nothing. *)
Theorem submit_extends_file (p : Props) (s : State) (f : OnConfirm) :
  onConfirm p = Some f →
  isModalOpen s = true →
  isConfirmButtonDisabled s = false →
  let out := fire (submitAndClose p s) s in
  (∀ current, file s = Some current →
     calls out = [callOnConfirm f (PartialFile.setSource (sourceState s) current)]
     ∧ file (state out) = Some (PartialFile.setSource (sourceState s) current)
     ∧ PartialFile.name (PartialFile.setSource (sourceState s) current)
       = PartialFile.name current
     ∧ PartialFile.size (PartialFile.setSource (sourceState s) current)
       = PartialFile.size current
     ∧ PartialFile.type (PartialFile.setSource (sourceState s) current)
       = PartialFile.type current)
  ∧ (file s = None →
     calls out = [callOnConfirm f (PartialFile.setSource (sourceState s) PartialFile.empty)]
     ∧ file (state out) = None)
  ∧ withFile (file s) (withIsModalOpen true (state out)) = s.
Proof.
  intros Hf Hopen Henabled. cbn zeta. unfold fire, submitAndClose, assignSource.
  rewrite Hf, Hopen, Henabled. cbn. split; [|split].
  - intros current Hcurrent. by rewrite Hcurrent.
  - intros Hnone. by rewrite Hnone.
  - destruct s; cbn in *; subst. by destruct file0.
Qed.

End Component.

Arguments Props : clear implicits.
Arguments Call : clear implicits.
Arguments Run : clear implicits.
Arguments M : clear implicits.
Arguments MenuItem : clear implicits.
Arguments Rendered : clear implicits.
Arguments MenuMemo : clear implicits.

End AttachmentModal.

(** *** The attachment modal on concrete inputs *)

Module AttachmentModalExamples.
Import AttachmentModal.

Definition sampleIsPDF (s : string) : bool :=
  if decide (String.length s < 4)%nat then false
  else bool_decide (lower (String.substring (String.length s - 4) 4 s) = ".pdf").

Definition sampleCleanFileName (s : string) : string :=
  String.concat "_" (String.words s).

Definition sampleCreateObjectURL (f : File.t) : string :=
  "blob:" +:+ File.name f.

Definition sampleState : State :=
  {| isModalOpen := false;
     shouldLoadAttachment := false;
     isAttachmentInvalid := false;
     isDeleteReceiptConfirmModalVisible := false;
     isAuthTokenRequiredState := false;
     attachmentInvalidReasonTitle := "";
     attachmentInvalidReason := None;
     sourceState := "";
     modalType := CENTERED_UNSWIPEABLE;
     isConfirmButtonDisabled := false;
     isDownloadButtonReadyToBeShown := true;
     file := None |}.

Definition sampleProps : Props unit unit nat unit :=
  {| source := "";
     onConfirm := Some 7%nat;
     defaultOpen := false;
     originalFileName := "";
     isAuthTokenRequired := false;
     allowDownload := false;
     headerTitle := None;
     report := None;
     isWorkspaceAvatar := false;
     isReceiptAttachment := false;
     transaction := None;
     parentReport := None;
     parentReportActions := None;
     policy := None;
     isOffline := false;
     isSmallScreenWidth := false |}.

Definition display (d : Data) (s : State) : Run nat :=
  fire
    (displayFileInModal
       (childrenProps id sampleIsPDF sampleCleanFileName
          sampleCreateObjectURL 25165824 240) d) s.

Example display_min_size :
  state (display (DataFile (File.mk "my receipt.pdf" 240 "application/pdf")) sampleState)
  = withModalType CENTERED_UNSWIPEABLE
      (withFile (Some (PartialFile.ofFile (File.mk "my_receipt.pdf" 240 "application/pdf")))
         (withSourceState "blob:my_receipt.pdf" (withIsModalOpen true sampleState))).
Proof. reflexivity. Qed.

Example display_too_small :
  state (display (DataFile (File.mk "a.png" 239 "image/png")) sampleState)
  = withAttachmentInvalidReason (Some "attachmentPicker.sizeNotMet")
      (withAttachmentInvalidReasonTitle "attachmentPicker.attachmentTooSmall"
         (withIsAttachmentInvalid true sampleState)).
Proof. reflexivity. Qed.

Example display_directory :
  state (display (DataTransferItem (Some {| isDirectory := true |}) None) sampleState)
  = withAttachmentInvalidReason (Some "attachmentPicker.folderNotAllowedMessage")
      (withAttachmentInvalidReasonTitle "attachmentPicker.attachmentError"
         (withIsAttachmentInvalid true sampleState)).
Proof. reflexivity. Qed.

Example submit_open :
  fire (submitAndClose sampleProps (withIsModalOpen true sampleState))
    (withIsModalOpen true sampleState)
  = {| state := sampleState;
       calls := [callOnConfirm 7%nat (PartialFile.setSource "" PartialFile.empty)] |}.
Proof. reflexivity. Qed.

Lemma submitAndClose_noop_witness :
  fire (submitAndClose sampleProps sampleState) sampleState
  = {| state := sampleState; calls := [] |}.
Proof. apply (submitAndClose_noop sampleProps sampleState). left. reflexivity. Defined.

Lemma displayFileInModal_spec_witness :
  accepted id sampleIsPDF sampleCleanFileName sampleCreateObjectURL
    (File.mk "my receipt.pdf" 25165824 "application/pdf")
    (display (DataFile (File.mk "my receipt.pdf" 25165824 "application/pdf")) sampleState).
Proof.
  apply (displayFileInModal_spec id sampleIsPDF sampleCleanFileName sampleCreateObjectURL
           25165824 240
           (DataFile (File.mk "my receipt.pdf" 25165824 "application/pdf")) sampleState).
  - lia.
  - reflexivity.
  - reflexivity.
  - right. reflexivity.
Defined.

(** A receipt whose field can be edited and whose scan is finished. *)
Definition sampleReceiptProps : Props unit unit nat unit :=
  {| source := "https://example.com/receipt.jpg";
     onConfirm := None;
     defaultOpen := true;
     originalFileName := "receipt.jpg";
     isAuthTokenRequired := true;
     allowDownload := true;
     headerTitle := Some "Receipt";
     report := Some {| reportID := "R2"; parentReportActionID := Some "A1" |};
     isWorkspaceAvatar := false;
     isReceiptAttachment := true;
     transaction := Some tt;
     parentReport := Some {| reportID := "R1"; parentReportActionID := None |};
     parentReportActions := Some {[ "A1" := tt ]};
     policy := None;
     isOffline := false;
     isSmallScreenWidth := false |}.

Definition sampleCanEdit (action : Property unit) (parentReportID : string)
    (field : EDIT_REQUEST_FIELD) (t : option unit) : bool :=
  match action with Own _ => true | _ => false end && bool_decide (is_Some t).

Definition sampleItems (p : Props unit unit nat unit) (s : State) : list (MenuItem nat) :=
  threeDotsMenuItems id id sampleCanEdit
    (λ _, false) (λ t, bool_decide (is_Some t)) (λ _, false) p s.

Example sample_menu_icons :
  icon <$> sampleItems sampleReceiptProps (initialState sampleReceiptProps)
  = [Camera; Download; Trashcan].
Proof. reflexivity. Qed.

Example sample_menu_not_a_receipt :
  sampleItems sampleProps sampleState = [].
Proof. reflexivity. Qed.

Lemma submitAndClose_confirm_witness :
  calls (fire (submitAndClose sampleProps (withIsModalOpen true sampleState))
               (withIsModalOpen true sampleState))
  = [callOnConfirm 7%nat (lodashExtend None "")]
  ∧ isModalOpen
      (state (fire (submitAndClose sampleProps
                              (withIsModalOpen true sampleState))
                    (withIsModalOpen true sampleState))) = false.
Proof.
  apply (proj1 (proj2 (proj2 (submitAndClose_confirm (λ _, "") id id
                         sampleCanEdit (λ _, false) (λ _, false) (λ _, false) (λ _, false)
                         None sampleProps (withIsModalOpen true sampleState))))
           7%nat);
    reflexivity.
Defined.

Lemma threeDotsMenuItems_spec_witness :
  deleteReceiptItem id
  ∈ sampleItems sampleReceiptProps (initialState sampleReceiptProps).
Proof.
  apply (proj2 (proj2 (proj2
           (proj2 (proj2 (threeDotsMenuItems_spec id id sampleCanEdit
                            (λ _, false) (λ t, bool_decide (is_Some t)) (λ _, false)
                            sampleReceiptProps
                            (initialState sampleReceiptProps)))
              {| reportID := "R1"; parentReportActionID := None |} {[ "A1" := tt ]}
              eq_refl eq_refl eq_refl)))).
  repeat split; reflexivity.
Defined.

Lemma overlay_confirm_modals_witness :
  modal_onClose
    (modal (render (λ _, "") id id sampleCanEdit
                  (λ _, false) (λ _, false) (λ _, false) (λ _, false)
                  None sampleProps (withIsAttachmentInvalid true sampleState)))
  = closeConfirmModal.
Proof.
  apply (proj2 (proj2 (proj2
           (overlay_confirm_modals (λ _, "") id id sampleCanEdit
              (λ _, false) (λ _, false) (λ _, false) (λ _, false)
              None sampleProps (withIsAttachmentInvalid true sampleState))))).
  right. eexists. split; reflexivity.
Defined.

Lemma getModalType_spec_witness :
  getModalType id sampleIsPDF "blob:scan" (Some (PartialFile.ofName "Scan.PDF"))
  = CENTERED_UNSWIPEABLE.
Proof.
  apply (proj1 (getModalType_spec id sampleIsPDF "blob:scan" (PartialFile.ofName "Scan.PDF"))
           "Scan.PDF" eq_refl).
  - discriminate.
  - split; [discriminate|]. right. reflexivity.
Defined.

Lemma lower_idempotent (s : string) : lower (lower s) = lower s.
Proof.
  induction s as [|c s IH]; [done|]. cbn. rewrite IH. f_equal.
  by destruct c as [[] [] [] [] [] [] [] []].
Qed.

Example picker_response_over_the_limit :
  isModalOpen
    (state (display (DataImagePickerResponse
                       (ImagePickerResponse.mk 10 "big photo.jpg" 99999999 "image/jpeg"
                          "file:///big photo.jpg" 10)) sampleState)) = true.
Proof. reflexivity. Qed.

Lemma delete_receipt_flow_witness :
  visible
    (deleteReceiptConfirmModal
       (render (λ _, "") id id sampleCanEdit (λ _, false) (λ _, false) (λ _, false)
          (λ _, false) None sampleReceiptProps
          (state (fire (onSelected (OnConfirm := nat) (deleteReceiptItem id))
                    (initialState sampleReceiptProps))))).
Proof.
  apply (proj1 (delete_receipt_flow (λ _, "") id id sampleCanEdit (λ _, false) (λ _, false)
                  (λ _, false) (λ _, false) None sampleReceiptProps
                  (initialState sampleReceiptProps) eq_refl)).
Defined.

Lemma item_without_file_ignored_witness :
  display (DataTransferItem (Some {| isDirectory := false |}) None) sampleState
  = {| state := sampleState; calls := [] |}.
Proof.
  apply (item_without_file_ignored id sampleIsPDF sampleCleanFileName sampleCreateObjectURL
           25165824 240 (Some {| isDirectory := false |}) sampleState).
  reflexivity.
Defined.

Lemma shown_file_is_stable_witness :
  let again : Run nat :=
    fire (displayFileInModal
            (childrenProps id sampleIsPDF lower sampleCreateObjectURL 25165824 240)
            (DataFile (File.mk "scan.pdf" 1000 "application/pdf")))
      (withIsModalOpen true sampleState) in
  file (state again)
    = Some (PartialFile.ofFile (File.mk "scan.pdf" 1000 "application/pdf"))
  ∧ sourceState (state again) = "blob:scan.pdf"
  ∧ isModalOpen (state again) = true.
Proof.
  apply (shown_file_is_stable id sampleIsPDF lower sampleCreateObjectURL 25165824 240
           (File.mk "Scan.PDF" 1000 "application/pdf")
           (File.mk "scan.pdf" 1000 "application/pdf")
           sampleState (withIsModalOpen true sampleState)).
  - apply lower_idempotent.
  - cbn. lia.
  - reflexivity.
Defined.

Lemma pdf_opens_unswipeable_witness :
  modalType (state (display (DataFile (File.mk "my receipt.pdf" 240 "application/pdf"))
                      sampleState))
  = CENTERED_UNSWIPEABLE.
Proof.
  apply (pdf_opens_unswipeable id sampleIsPDF sampleCleanFileName sampleCreateObjectURL
           25165824 240 (File.mk "my receipt.pdf" 240 "application/pdf") sampleState).
  - intros g. discriminate.
  - cbn. lia.
  - discriminate.
  - reflexivity.
Defined.

Lemma submit_extends_file_witness :
  calls (fire (submitAndClose sampleProps
                 (withFile (Some (PartialFile.ofName "a.png"))
                    (withIsModalOpen true sampleState)))
           (withFile (Some (PartialFile.ofName "a.png")) (withIsModalOpen true sampleState)))
  = [callOnConfirm 7%nat (PartialFile.setSource "" (PartialFile.ofName "a.png"))].
Proof.
  apply (proj1 (submit_extends_file sampleProps
                  (withFile (Some (PartialFile.ofName "a.png"))
                     (withIsModalOpen true sampleState))
                  7%nat eq_refl eq_refl eq_refl)
           (PartialFile.ofName "a.png") eq_refl).
Defined.

Lemma size_limits_apply_to_files_only_witness :
  isModalOpen
    (state (display (DataImagePickerResponse
                       (ImagePickerResponse.mk 10 "big photo.jpg" 99999999 "image/jpeg"
                          "file:///big photo.jpg" 10)) sampleState)) = true
  ∧ isAttachmentInvalid
      (state (display (DataFile (File.mk "big photo.jpg" 99999999 "image/jpeg"))
                sampleState)) = true.
Proof.
  assert (H := size_limits_apply_to_files_only (OnConfirm := nat) id sampleIsPDF sampleCleanFileName
                 sampleCreateObjectURL 25165824 240
                 (ImagePickerResponse.mk 10 "big photo.jpg" 99999999 "image/jpeg"
                    "file:///big photo.jpg" 10) sampleState (or_introl eq_refl)).
  exact (conj (proj1 (proj1 H)) (proj2 (proj2 (proj2 H)))).
Defined.

(** The same receipt, now under a report whose parent report action is
    not among the parent report actions; nothing else has changed. *)
Definition movedReceiptProps : Props unit unit nat unit :=
  {| source := "https://example.com/receipt.jpg";
     onConfirm := None;
     defaultOpen := true;
     originalFileName := "receipt.jpg";
     isAuthTokenRequired := true;
     allowDownload := true;
     headerTitle := Some "Receipt";
     report := Some {| reportID := "R3"; parentReportActionID := Some "A2" |};
     isWorkspaceAvatar := false;
     isReceiptAttachment := true;
     transaction := Some tt;
     parentReport := Some {| reportID := "R1"; parentReportActionID := None |};
     parentReportActions := Some {[ "A1" := tt ]};
     policy := None;
     isOffline := false;
     isSmallScreenWidth := false |}.

(** The menu shown at a second render, with [movedReceiptProps], after a
    first render with [sampleReceiptProps]. *)
Definition menuAfterMove : list (MenuItem nat) :=
  let s := initialState sampleReceiptProps in
  let first := useMemoMenu None sampleReceiptProps s in
  header_threeDotsMenuItems
    (header (render (λ _, "") id id sampleCanEdit (λ _, false)
               (λ t, bool_decide (is_Some t)) (λ _, false) (λ _, false)
               (Some first) movedReceiptProps s)).

Example menu_after_move_icons : icon <$> menuAfterMove = [Camera; Download; Trashcan].
Proof. vm_compute. reflexivity. Qed.

Example fresh_menu_after_move_icons :
  icon <$> sampleItems movedReceiptProps (initialState sampleReceiptProps) = [Download].
Proof. reflexivity. Qed.

Example inherited_key :
  readProperty ({[ "A1" := tt ]} : gmap string unit) "constructor" = Inherited "constructor"
  ∧ readProperty ({[ "A1" := tt ]} : gmap string unit) "A2" = Undefined
  ∧ readProperty ({[ "A1" := tt ]} : gmap string unit) "A1" = Own tt.
Proof. by repeat split. Qed.

Example display_calls :
  calls (display (DataFile (File.mk "my receipt.pdf" 240 "application/pdf")) sampleState)
  = [ newFile (File.mk "my receipt.pdf" 240 "application/pdf") "my_receipt.pdf"
        "application/pdf";
      urlCreateObjectURL (File.mk "my_receipt.pdf" 240 "application/pdf") ].
Proof. reflexivity. Qed.



End AttachmentModalExamples.
